(** * WallGo collision integrals: kinematics, integrand and Monte Carlo driver

    A shallow embedding of [CollisionIntegral4::calculateIntegrand] and
    [CollisionIntegral4::evaluate] (src/Collision/src/CollisionIntegral.cpp)
    and of the part of the [CollisionTensor] interface
    (src/Collision/src/include/WallGoCollision/CollisionTensor.h) that the
    specification talks about.

    The C++ code computes in [double].  The embedding is written once over
    an interface [Scalar] of the operations the code uses, and the interface
    is implemented twice:
    - [binary64]: Rocq's primitive IEEE 754 binary64 floats, which are the
      C++ [double] bit for bit (rounding, signed zeros, infinities, NaN)
      when every operation is rounded to [double] on its own (no fused
      multiply-add, no extended precision); this instance is the program
      as it runs, and it computes;
    - [exactReal]: the real numbers, i.e. the arithmetic the comments of the
      code reason in; it is used only to say what the formulas mean when
      rounding is ignored. *)

From Stdlib Require Import ZArith List Floats Reals Lra Lia.
From Stdlib Require Import RNsatz.
From stdpp Require Import gmap strings.
Import ListNotations.

Set Implicit Arguments.

(* ===================================================================== *)
(** ** The arithmetic of [double] as an interface *)
(* ===================================================================== *)

Declare Scope sc_scope.
Delimit Scope sc_scope with sc.

(** Literals are fields named after the C++ literal they stand for
    ([c1em8] is [1e-8], [c0_2] is [0.2]).  [of_size_t] is the implicit
    conversion [size_t -> double] and [to_size_t] the implicit conversion
    [double -> size_t] (truncation towards zero; the code converts the
    nonnegative product [0.2*calls] only). *)
Class Scalar (F : Type) : Type := {
  c0_0 : F;  c1_0 : F;  c2_0 : F;  c4_0 : F;  c8_0 : F;
  c0_5 : F;  c0_2 : F;  c1em8 : F;
  Sadd : F -> F -> F;
  Ssub : F -> F -> F;
  Smul : F -> F -> F;
  Sdiv : F -> F -> F;
  Sopp : F -> F;
  Ssqrt : F -> F;
  Sabs : F -> F;
  Sltb : F -> F -> bool;
  Sleb : F -> F -> bool;
  of_size_t : Z -> F;
  to_size_t : F -> Z
}.

Infix "+" := Sadd : sc_scope.
Infix "-" := Ssub : sc_scope.
Infix "*" := Smul : sc_scope.
Infix "/" := Sdiv : sc_scope.
Notation "- x" := (Sopp x) : sc_scope.
Notation "x <? y" := (Sltb x y) (at level 70, no associativity) : sc_scope.
Notation "x <=? y" := (Sleb x y) (at level 70, no associativity) : sc_scope.
Notation "x >? y" := (Sltb y x)
  (at level 70, no associativity, only parsing) : sc_scope.
Notation "x >=? y" := (Sleb y x)
  (at level 70, no associativity, only parsing) : sc_scope.

(** *** binary64 *)

(** Truncation of a finite binary64 value to an integer, as the conversion
    [double -> size_t] does for the nonnegative values in range the code
    converts. *)
Definition SF_trunc (x : SpecFloat.spec_float) : Z :=
  match x with
  | SpecFloat.S754_finite s m e =>
      let a := match e with
               | Z0 => Zpos m
               | Zpos p => (Zpos m * 2 ^ Zpos p)%Z
               | Zneg p => (Zpos m / 2 ^ Zpos p)%Z
               end in
      if s then (- a)%Z else a
  | _ => 0%Z
  end.

#[export] Instance binary64 : Scalar float := {|
  c0_0 := 0%float;  c1_0 := 1%float;  c2_0 := 2%float;  c4_0 := 4%float;
  c8_0 := 8%float;  c0_5 := 0.5%float;
  c0_2 := 0x1.999999999999ap-3%float;
  c1em8 := 0x1.5798ee2308c3ap-27%float;
  Sadd := PrimFloat.add;
  Ssub := PrimFloat.sub;
  Smul := PrimFloat.mul;
  Sdiv := PrimFloat.div;
  Sopp := PrimFloat.opp;
  Ssqrt := PrimFloat.sqrt;
  Sabs := PrimFloat.abs;
  Sltb := PrimFloat.ltb;
  Sleb := PrimFloat.leb;
  of_size_t := fun n => PrimFloat.of_uint63 (Uint63.of_Z n);
  to_size_t := fun x => SF_trunc (FloatOps.Prim2SF x)
|}.

(** *** exact real arithmetic *)

Definition Rltb (x y : R) : bool := if Rlt_dec x y then true else false.
Definition Rleb (x y : R) : bool := if Rle_dec x y then true else false.

#[export] Instance exactReal : Scalar R := {|
  c0_0 := 0%R;  c1_0 := 1%R;  c2_0 := 2%R;  c4_0 := 4%R;  c8_0 := 8%R;
  c0_5 := (1 / 2)%R;  c0_2 := (1 / 5)%R;  c1em8 := (1 / 100000000)%R;
  Sadd := Rplus;
  Ssub := Rminus;
  Smul := Rmult;
  Sdiv := Rdiv;
  Sopp := Ropp;
  Ssqrt := R_sqrt.sqrt;
  Sabs := Rabs;
  Sltb := Rltb;
  Sleb := Rleb;
  of_size_t := IZR;
  to_size_t := Int_part
|}.

(** [std::max(a, b)] is [(a < b) ? b : a]. *)
Definition Smax {F : Type} {SF : Scalar F} (a b : F) : F :=
  if Sltb a b then b else a.

(* ===================================================================== *)
(** ** Data model *)
(* ===================================================================== *)

(** [std::array<T, 4>]: the four mass squares, the four momenta. *)
Record Array4 (T : Type) : Type :=
  mkArray4 { at0 : T; at1 : T; at2 : T; at3 : T }.

Definition nth4 {T : Type} (a : Array4 T) (i : nat) : T :=
  match i with
  | 0 => at0 a
  | 1 => at1 a
  | 2 => at2 a
  | _ => at3 a
  end.

Section DataModel.
Context {F : Type} {SF : Scalar F}.
Local Open Scope sc_scope.

(** Modelled from the spec: the class [FourVector] (FourVector.h is not
    among the sources).  Four components, component 0 the energy; [+],
    [-] and scalar [*] act component-wise, [P * Q] is the Minkowski
    product in the (+1 -1 -1 -1) metric that the comment at line 124 of
    CollisionIntegral.cpp relies on. *)
Record FourVector : Type :=
  mkFourVector { fv0 : F; fv1 : F; fv2 : F; fv3 : F }.

Definition energy (P : FourVector) : F := fv0 P.

(** [P[0] = E;] *)
Definition setEnergy (P : FourVector) (E : F) : FourVector :=
  mkFourVector E (fv1 P) (fv2 P) (fv3 P).

Definition FVadd (P Q : FourVector) : FourVector :=
  mkFourVector (fv0 P + fv0 Q) (fv1 P + fv1 Q) (fv2 P + fv2 Q) (fv3 P + fv3 Q).

Definition FVsub (P Q : FourVector) : FourVector :=
  mkFourVector (fv0 P - fv0 Q) (fv1 P - fv1 Q) (fv2 P - fv2 Q) (fv3 P - fv3 Q).

Definition FVscale (a : F) (P : FourVector) : FourVector :=
  mkFourVector (a * fv0 P) (a * fv1 P) (a * fv2 P) (a * fv3 P).

Definition FVdot (P Q : FourVector) : F :=
  fv0 P * fv0 Q - fv1 P * fv1 Q - fv2 P * fv2 Q - fv3 P * fv3 Q.

(** [std::sin], [std::cos], [std::acos]: the C library is outside the
    program, so its three functions are a parameter of the model. *)
Record Libm : Type := {
  std_sin : F -> F;
  std_cos : F -> F;
  std_acos : F -> F
}.

(** The member [polynomialBasis] of [CollisionIntegral4]; its class is
    not among the sources, so the five functions the integrand calls are
    a parameter of the model. *)
Record PolynomialBasis : Type := {
  rhoZGrid : Z -> F;
  rhoParGrid : Z -> F;
  rhoZ_to_pZ : F -> F;
  rhoPar_to_pPar : F -> F;
  TmTn : Z -> Z -> FourVector -> F
}.

(** [CollElem<4>] (CollElem.h is not among the sources): what the
    integrand does with a collision element, slot by slot
    ([collElem.particles[i].isInEquilibrium()],
    [collElem.particles[i].setDeltaF(x)]) and as a whole
    ([collElem.evaluate(fourMomenta)]). *)
Record CollElemOps (CollElem : Type) : Type := {
  isInEquilibrium : CollElem -> nat -> bool;
  setDeltaF : CollElem -> nat -> F -> CollElem;
  evaluateElem : CollElem -> Array4 FourVector -> F
}.

(** Constants of the program declared in headers that are not among the
    sources: [constants::pi] and [massSquaredLowerBound]. *)
Record Constants : Type := {
  pi : F;
  massSquaredLowerBound : F
}.

(** What the integrand writes to [std::cerr]. *)
Inductive Diagnostic : Type :=
| InvalidRoot                    (* "! Invalid root in CollisionIntegral4::calculateIntegrand" *)
| NegativeEnergyE4 (E4 : F).     (* "! Negative energy E4: " << FV4.energy() *)

End DataModel.

Arguments FourVector F : clear implicits.
Arguments Libm F : clear implicits.
Arguments PolynomialBasis F : clear implicits.
Arguments CollElemOps F CollElem : clear implicits.
Arguments Constants F : clear implicits.
Arguments Diagnostic F : clear implicits.

(* ===================================================================== *)
(** ** [CollisionIntegral4::calculateIntegrand] *)
(* ===================================================================== *)

Section Integrand.
Context {F : Type} {SF : Scalar F}.
Local Open Scope sc_scope.

Variable libm : Libm F.
Variable polynomialBasis : PolynomialBasis F.
Variable cst : Constants F.
Variable CollElem : Type.
Variable elemOps : CollElemOps F CollElem.
(** The member [collisionElements]. *)
Variable collisionElements : list CollElem.

(** The local variables of lines 99-154, under their names in the code
    ([coefA], [coefB], [coefC] are [A], [B], [C]). *)
Record Locals : Type := {
  pZ1 : F;  pPar1 : F;  p1 : F;
  FV1dummy : FourVector F;
  FV2dummy : FourVector F;
  FV3Hat : FourVector F;
  p1p2Dot : F;  p1p3HatDot : F;  p2p3HatDot : F;
  E1 : F;  E2 : F;
  Q : F;  kappa : F;  eps : F;  delta : F;
  coefA : F;  coefB : F;  coefC : F;
  discriminant : F;
  root1 : F;  root2 : F
}.

(** Lines 99-154: angles, three-vectors, energies and the quadratic. *)
Definition kinematics (j k : Z) (p2 phi2 phi3 cosTheta2 cosTheta3 : F)
    (massSquared : Array4 F) : Locals :=
  let sinTheta2 := std_sin libm (std_acos libm cosTheta2) in
  let sinTheta3 := std_sin libm (std_acos libm cosTheta3) in
  let sinPhi2 := std_sin libm phi2 in
  let sinPhi3 := std_sin libm phi3 in
  let cosPhi2 := std_cos libm phi2 in
  let cosPhi3 := std_cos libm phi3 in
  let rhoZ1 := rhoZGrid polynomialBasis j in
  let rhoPar1 := rhoParGrid polynomialBasis k in
  let pZ1 := rhoZ_to_pZ polynomialBasis rhoZ1 in
  let pPar1 := rhoPar_to_pPar polynomialBasis rhoPar1 in
  let p1 := Ssqrt (pZ1 * pZ1 + pPar1 * pPar1) in
  let FV1dummy := mkFourVector c0_0 c0_0 pPar1 pZ1 in
  let FV2dummy :=
    mkFourVector c0_0 (p2 * sinTheta2 * cosPhi2) (p2 * sinTheta2 * sinPhi2)
                 (p2 * cosTheta2) in
  let FV3Hat :=
    mkFourVector c0_0 (sinTheta3 * cosPhi3) (sinTheta3 * sinPhi3) cosTheta3 in
  (* -1.0 * FV1dummy*FV2dummy parses as (-1.0 * FV1dummy) * FV2dummy *)
  let p1p2Dot := FVdot (FVscale (- c1_0) FV1dummy) FV2dummy in
  let p1p3HatDot := FVdot (FVscale (- c1_0) FV1dummy) FV3Hat in
  let p2p3HatDot := FVdot (FVscale (- c1_0) FV2dummy) FV3Hat in
  let E1 := Ssqrt (p1 * p1 + at0 massSquared) in
  let E2 := Ssqrt (p2 * p2 + at1 massSquared) in
  let Q := at0 massSquared + at1 massSquared + at2 massSquared - at3 massSquared in
  let kappa := Q + c2_0 * (E1 * E2 - p1p2Dot) in
  let eps := c2_0 * (E1 + E2) in
  let delta := c2_0 * (p1p3HatDot + p2p3HatDot) in
  let A := delta * delta - eps * eps in
  let B := c2_0 * kappa * delta in
  let C := kappa * kappa in
  let discriminant := B * B - c4_0 * A * C in
  let root1 := c0_5 * (- B - Ssqrt discriminant) / A in
  let root2 := c0_5 * (- B + Ssqrt discriminant) / A in
  {| pZ1 := pZ1; pPar1 := pPar1; p1 := p1;
     FV1dummy := FV1dummy; FV2dummy := FV2dummy; FV3Hat := FV3Hat;
     p1p2Dot := p1p2Dot; p1p3HatDot := p1p3HatDot; p2p3HatDot := p2p3HatDot;
     E1 := E1; E2 := E2; Q := Q; kappa := kappa; eps := eps; delta := delta;
     coefA := A; coefB := B; coefC := C; discriminant := discriminant;
     root1 := root1; root2 := root2 |}.

(** The lambda [funcG] of lines 142-145. *)
Definition funcG (L : Locals) (massSquared : Array4 F) (p3 : F) : F :=
  let m3sq := at2 massSquared in
  kappa L + delta L * p3 - eps L * Ssqrt (p3 * p3 + m3sq).

(** Lines 162-166: the vector [rootp3]. *)
Definition rootp3 (L : Locals) : list F :=
  (if root1 L >=? c0_0 then [root1 L] else [])
  ++ (if root2 L >=? c0_0 then [root2 L] else []).

(** Lines 179-190: the four momenta at a root. *)
Definition fourMomentaAt (L : Locals) (massSquared : Array4 F) (p3 : F)
    : Array4 (FourVector F) :=
  let E3 := Ssqrt (p3 * p3 + at2 massSquared) in
  let FV1 := setEnergy (FV1dummy L) (E1 L) in
  let FV2 := setEnergy (FV2dummy L) (E2 L) in
  let FV3 := setEnergy (FVscale p3 (FV3Hat L)) E3 in
  let FV4 := FVsub (FVadd FV1 FV2) FV3 in
  mkArray4 FV1 FV2 FV3 FV4.

(** Lines 209-213: the [deltaF] of the slots that are out of
    equilibrium. *)
Definition fixDeltaF (m n : Z) (fourMomenta : Array4 (FourVector F))
    (collElem : CollElem) : CollElem :=
  fold_left
    (fun ce i =>
       if negb (isInEquilibrium elemOps ce i)
       then setDeltaF elemOps ce i (TmTn polynomialBasis m n (nth4 fourMomenta i))
       else ce)
    [0; 1; 2; 3]%nat collElem.

(** Lines 199-216: the loop over [collisionElements], [integrand]
    starting at [0.0]. *)
Definition sumCollisionElements (m n : Z)
    (fourMomenta : Array4 (FourVector F)) : F :=
  fold_left
    (fun integrand collElem =>
       integrand + evaluateElem elemOps (fixDeltaF m n fourMomenta collElem) fourMomenta)
    collisionElements c0_0.

(** Lines 218-225: the local [kinPrefac]. *)
Definition kinPrefac (L : Locals) (massSquared : Array4 F) (p2 p3 : F) : F :=
  let E3 := Ssqrt (p3 * p3 + at2 massSquared) in
  let kinPrefac := c1_0 in
  let kinPrefac :=
    if Sabs (at1 massSquared) <? massSquaredLowerBound cst
    then kinPrefac * p2
    else kinPrefac * (p2 * p2 / E2 L) in
  if Sabs (at2 massSquared) <? massSquaredLowerBound cst
  then kinPrefac * p3
  else kinPrefac * (p3 * p3 / E3).

(** Lines 227-230: the local [gDer]. *)
Definition gDer (L : Locals) (massSquared : Array4 F) (p3 : F) : F :=
  let E3 := Ssqrt (p3 * p3 + at2 massSquared) in
  if Sabs (at2 massSquared) <? massSquaredLowerBound cst
  then delta L - eps L
  else delta L - eps L * p3 / E3.

(** One pass through the body of the loop over [rootp3] (lines 172-236):
    the lines written to [std::cerr], and [Some integrand] when the pass
    reaches [fullIntegrand += integrand], [None] when it leaves through
    [continue].  [kinPrefac] is computed at lines 218-225 and not read
    afterwards, so it does not occur in the result. *)
Definition rootPass (m n : Z) (L : Locals) (massSquared : Array4 F)
    (p2 p3 : F) : list (Diagnostic F) * option F :=
  let warn :=
    if Sabs (funcG L massSquared p3) >? c1em8 then [InvalidRoot] else [] in
  let fourMomenta := fourMomentaAt L massSquared p3 in
  let FV4 := at3 fourMomenta in
  if energy FV4 <? c0_0
  then (warn ++ [NegativeEnergyE4 (energy FV4)], None)
  else
    let integrand := sumCollisionElements m n fourMomenta in
    let kinPrefac := kinPrefac L massSquared p2 p3 in
    let gDer := gDer L massSquared p3 in
    let integrand := integrand / Sabs gDer in
    (warn, Some integrand).

(** The loop over [rootp3]: the state is [fullIntegrand] and what has
    been written to [std::cerr] so far. *)
Definition rootLoop (m n : Z) (L : Locals) (massSquared : Array4 F) (p2 : F)
    (roots : list F) (fullIntegrand : F) (cerr : list (Diagnostic F))
    : F * list (Diagnostic F) :=
  fold_left
    (fun st p3 =>
       let '(fullIntegrand, cerr) := st in
       match rootPass m n L massSquared p2 p3 with
       | (out, Some integrand) => (fullIntegrand + integrand, cerr ++ out)
       | (out, None) => (fullIntegrand, cerr ++ out)
       end)
    roots (fullIntegrand, cerr).

(** Lines 239-240. *)
Definition pi2Pow5 : F :=
  let PI := pi cst in
  (c2_0 * PI) * (c2_0 * PI) * (c2_0 * PI) * (c2_0 * PI) * (c2_0 * PI).

(** The whole function: its return value and what it wrote to
    [std::cerr]. *)
Definition calculateIntegrand (m n j k : Z)
    (p2 phi2 phi3 cosTheta2 cosTheta3 : F) (massSquared : Array4 F)
    : F * list (Diagnostic F) :=
  let L := kinematics j k p2 phi2 phi3 cosTheta2 cosTheta3 massSquared in
  let '(fullIntegrand, cerr) :=
    rootLoop m n L massSquared p2 (rootp3 L) c0_0 [] in
  (fullIntegrand / pi2Pow5 / c8_0, cerr).

End Integrand.

(* ===================================================================== *)
(** ** Roots that reach the collision elements *)
(* ===================================================================== *)

Section Roots.
Context {F : Type} {SF : Scalar F}.
Local Open Scope sc_scope.

Variable polynomialBasis : PolynomialBasis F.
Variable cst : Constants F.
Variable CollElem : Type.
Variable elemOps : CollElemOps F CollElem.
Variable collisionElements : list CollElem.

(** [E4] at a root: the energy of [FV4 = FV1 + FV2 - FV3]. *)
Definition E4At (L : Locals) (massSquared : Array4 F) (p3 : F) : F :=
  energy (at3 (fourMomentaAt L massSquared p3)).

(** The test of line 192, negated: the pass does not [continue]. *)
Definition energyTestPasses (L : Locals) (massSquared : Array4 F) (p3 : F) : bool :=
  negb (E4At L massSquared p3 <? c0_0).

(** The roots of [rootp3] whose pass reaches the collision elements. *)
Definition acceptedRoots (L : Locals) (massSquared : Array4 F) : list F :=
  List.filter (energyTestPasses L massSquared) (rootp3 L).

(** The momenta handed to [collElem.evaluate], one set per accepted
    root, each with its [p3]. *)
Definition kinematicRecords (L : Locals) (massSquared : Array4 F)
    : list (F * Array4 (FourVector F)) :=
  map (fun p3 => (p3, fourMomentaAt L massSquared p3)) (acceptedRoots L massSquared).

(** What an accepted root adds to [fullIntegrand]. *)
Definition rootContribution (m n : Z) (L : Locals) (massSquared : Array4 F)
    (p3 : F) : F :=
  sumCollisionElements polynomialBasis elemOps collisionElements m n
    (fourMomentaAt L massSquared p3)
  / Sabs (gDer cst L massSquared p3).

(** What a pass writes to [std::cerr]. *)
Definition rootDiagnostics (L : Locals) (massSquared : Array4 F) (p3 : F)
    : list (Diagnostic F) :=
  (if Sabs (funcG L massSquared p3) >? c1em8 then [InvalidRoot] else [])
  ++ (if E4At L massSquared p3 <? c0_0
      then [NegativeEnergyE4 (E4At L massSquared p3)] else []).

(** A root contributes to the integrand: it is in [rootp3] and its pass
    reaches [fullIntegrand += integrand]. *)
Definition contributes (m n : Z) (L : Locals) (massSquared : Array4 F)
    (p2 p3 : F) : Prop :=
  In p3 (rootp3 L)
  /\ exists integrand,
       snd (rootPass polynomialBasis cst elemOps collisionElements
              m n L massSquared p2 p3) = Some integrand.

(** The acceptance rule in the words of the specification (section 4.2):
    (a) [p3 >= 0], (b) [|g(p3)| <= tol * max(1, |kappa|)],
    (c) [E4 >= 0]. *)
Definition specAccepts (tol : F) (L : Locals) (massSquared : Array4 F) (p3 : F) : bool :=
  (p3 >=? c0_0)
  && (Sabs (funcG L massSquared p3) <=? tol * Smax c1_0 (Sabs (kappa L)))
  && (E4At L massSquared p3 >=? c0_0).


(** The kinematic prefactor in the words of the specification
    (section 4.2): [kappa2(p2, m2^2) * kappa3(p3, m3^2) * 1/|g'(p3)|]. *)
Definition specPrefactor (L : Locals) (massSquared : Array4 F) (p2 p3 : F) : F :=
  kinPrefac cst L massSquared p2 p3 * (c1_0 / Sabs (gDer cst L massSquared p3)).

(** The roots that the specification accepts (section 4.2), in the order
    of the code. *)
Definition specAcceptedRoots (tol : F) (L : Locals) (massSquared : Array4 F) : list F :=
  List.filter (specAccepts tol L massSquared) [root1 L; root2 L].

(** The contribution of one collision element at a root in the words of
    the specification (section 4.3): the element's
    [M^2/(2N) * (population factor)], which is what [collElem.evaluate]
    returns, times the prefactor. *)
Definition specContribution (m n : Z) (L : Locals) (massSquared : Array4 F)
    (p2 p3 : F) (collElem : CollElem) : F :=
  let fourMomenta := fourMomentaAt L massSquared p3 in
  evaluateElem elemOps (fixDeltaF polynomialBasis elemOps m n fourMomenta collElem)
    fourMomenta
  * specPrefactor L massSquared p2 p3.

(** The sample value in the words of the specification (section 4.3):
    the sum of the contributions of all elements over all accepted
    roots, divided by [(2 pi)^5 * 8]. *)
Definition specSampleValue (tol : F) (m n : Z) (L : Locals)
    (massSquared : Array4 F) (p2 : F) : F :=
  fold_left
    (fun total p3 =>
       fold_left
         (fun sum collElem => sum + specContribution m n L massSquared p2 p3 collElem)
         collisionElements total)
    (specAcceptedRoots tol L massSquared) c0_0
  / (pi2Pow5 cst * c8_0).

End Roots.

(* ===================================================================== *)
(** ** [CollisionIntegral4::evaluate] *)
(* ===================================================================== *)

Section MonteCarlo.
Context {F : Type} {SF : Scalar F}.
Local Open Scope sc_scope.

(** The GSL routines [evaluate] calls, with the generator and the Vegas
    grid as one explicit state [St]: [gsl_fresh] is the state after
    [gsl_rng_env_setup], [gsl_rng_alloc] and [gsl_monte_vegas_alloc];
    [gsl_monte_vegas_integrate G xl xu dim calls st] is one call of the
    routine, giving [(mean, error)] and the state it leaves behind. *)
Record Gsl (St : Type) : Type := {
  gsl_fresh : St;
  gsl_monte_vegas_integrate :
    (list F -> F) -> list F -> list F -> Z -> Z -> St -> (F * F) * St
}.

Variable libm : Libm F.
Variable polynomialBasis : PolynomialBasis F.
Variable cst : Constants F.
Variable CollElem : Type.
Variable elemOps : CollElemOps F CollElem.
Variable collisionElements : list CollElem.
(** The member [maxIntegrationMomentum]. *)
Variable maxIntegrationMomentum : F.

(** [gslWrapper::integrandWrapper] with the fields of [functionParams]
    as arguments; the value only, as GSL sees it. *)
Definition integrandWrapper (m n j k : Z) (msq : Array4 F) (intVars : list F) : F :=
  let p2 := nth 0 intVars c0_0 in
  let phi2 := nth 1 intVars c0_0 in
  let phi3 := nth 2 intVars c0_0 in
  let cosTheta2 := nth 3 intVars c0_0 in
  let cosTheta3 := nth 4 intVars c0_0 in
  fst (calculateIntegrand libm polynomialBasis cst elemOps collisionElements
         m n j k p2 phi2 phi3 cosTheta2 cosTheta3 msq).

(** [size_t calls = 100000;] (line 75). *)
Definition calls : Z := 100000.

(** [0.2*calls] passed for a [size_t] parameter (line 80). *)
Definition warmupCalls : Z := to_size_t (c0_2 * of_size_t calls).

(** [evaluate], with the GSL state it ends in (the code frees it). *)
Definition evaluate_run {St : Type} (gsl : Gsl St) (m n j k : Z)
    (massSquare : Array4 F) : (F * F) * St :=
  let dim := 5%Z in
  let integralLowerLimits := [c0_0; c0_0; c0_0; - c1_0; - c1_0] in
  let integralUpperLimits :=
    [maxIntegrationMomentum; c2_0 * pi cst; c2_0 * pi cst; c1_0; c1_0] in
  let state := gsl_fresh gsl in
  let G := integrandWrapper m n j k massSquare in
  let '(_, state) :=
    gsl_monte_vegas_integrate gsl G integralLowerLimits integralUpperLimits
      dim warmupCalls state in
  let '((mean, error), state) :=
    gsl_monte_vegas_integrate gsl G integralLowerLimits integralUpperLimits
      dim calls state in
  ((mean, error), state).

Definition evaluate {St : Type} (gsl : Gsl St) (m n j k : Z)
    (massSquare : Array4 F) : F * F :=
  fst (evaluate_run gsl m n j k massSquare).

(** A backend that also writes down the sample count of every call it
    receives, oldest first. *)
Definition recording {St : Type} (gsl : Gsl St) : Gsl (St * list Z) := {|
  gsl_fresh := (gsl_fresh gsl, []);
  gsl_monte_vegas_integrate := fun G xl xu dim n st =>
    let '(r, s) := gsl_monte_vegas_integrate gsl G xl xu dim n (fst st) in
    (r, (s, snd st ++ [n]))
|}.

(** *** The protocol in the words of the specification (section 4.5) *)

Record IntegrationOptions : Type := {
  opt_calls : Z;
  relativeErrorGoal : F;
  absoluteErrorGoal : F;
  maxTries : nat
}.

(** "stop when sigma/|mu| <= r OR sigma <= a". *)
Definition goalMet (o : IntegrationOptions) (r : F * F) : bool :=
  let '(mu, sigma) := r in
  (sigma / Sabs mu <=? relativeErrorGoal o) || (sigma <=? absoluteErrorGoal o).

(** "repeated production runs of [calls] samples each, re-using the
    learned grid; stop when ... OR tries >= maxTries".  [left] is
    [maxTries] minus the tries made so far. *)
Fixpoint specProduction {St : Type} (gsl : Gsl St) (o : IntegrationOptions)
    (G : list F -> F) (xl xu : list F) (left : nat) (last : F * F) (st : St)
    : (F * F * bool) * St :=
  match left with
  | O => ((fst last, snd last, goalMet o last), st)
  | S left' =>
      let '(r, st') := gsl_monte_vegas_integrate gsl G xl xu 5%Z (opt_calls o) st in
      if goalMet o r then ((fst r, snd r, true), st')
      else match left' with
           | O => ((fst r, snd r, false), st')
           | S _ => specProduction gsl o G xl xu left' r st'
           end
  end.

(** "run a warmup of ceil(0.2 * calls) samples to train the grid; then
    repeated production runs ...; report (mu, sigma, converged)". *)
Definition specIntegrate {St : Type} (gsl : Gsl St) (o : IntegrationOptions)
    (G : list F -> F) (xl xu : list F) : (F * F * bool) * St :=
  let warmup := ((opt_calls o + 4) / 5)%Z in
  let '(r0, st) :=
    gsl_monte_vegas_integrate gsl G xl xu 5%Z warmup (gsl_fresh gsl) in
  specProduction gsl o G xl xu (maxTries o) r0 st.

End MonteCarlo.

Arguments Gsl F St : clear implicits.

(* ===================================================================== *)
(** ** The [CollisionTensor] catalogue *)
(* ===================================================================== *)

Module Tensor.

(** The error kinds of section 7 of the specification. *)
Inductive ErrorKind : Type :=
| UnknownSymbol | DuplicateParticle | UnregisteredParticle
| MatrixElementParseError | FileNotFound | IntegrationDidNotConverge
| InvalidGridPoint | BusyTensor | Cancelled | IOError.

(** A call either returns or fails with an error. *)
Inductive Outcome (A : Type) : Type :=
| Returns (a : A)
| Fails (e : ErrorKind).
Arguments Returns {A} a.
Arguments Fails {A} e.


(** The mass fields of [ParticleSpecies] and its name. *)
Record ParticleSpecies : Type := {
  name : string;
  msqVacuum : float;
  msqThermal : float
}.

(** The members of [CollisionTensor] (CollisionTensor.h, lines 160-181)
    that the two operations below touch. *)
Record CollisionTensor : Type := {
  matrixElementFile : string;
  particles : list ParticleSpecies;
  particleIndex : gmap string nat
}.






(** Modelled from the spec: [CollisionTensor::setMatrixElementFile] is
    declared in CollisionTensor.h and defined in a file that is not among
    the sources.  Section 4.7: returns false if the file is absent; the
    declaration's comment: the return value is false if the file was not
    found, true otherwise.  [files] is the set of paths at which the file
    system has a file. *)
Definition setMatrixElementFile (files : gset string) (filePath : string)
    (t : CollisionTensor) : Outcome (bool * CollisionTensor) :=
  Returns (bool_decide (filePath ∈ files),
           {| matrixElementFile := filePath;
              particles := particles t;
              particleIndex := particleIndex t |}).

End Tensor.

(* ===================================================================== *)
(** ** A small binary64 configuration to run the integrand on *)
(* ===================================================================== *)

Module Run.
Local Open Scope float_scope.

(** The values every C library gives at the three arguments the runs
    below use: [sin 0 = 0], [cos 0 = 1], [acos 1 = 0].  No other
    argument occurs in a run; it would yield NaN here. *)
Definition libm : Libm float := {|
  std_sin := fun x => if x =? 0 then 0 else nan;
  std_cos := fun x => if x =? 0 then 1 else nan;
  std_acos := fun x => if x =? 1 then 0 else nan
|}.

(** A basis whose grid momenta are the grid indices: [pZ1 = j],
    [pPar1 = k]. *)
Definition basis : PolynomialBasis float := {|
  rhoZGrid := fun j => of_size_t j;
  rhoParGrid := fun k => of_size_t k;
  rhoZ_to_pZ := fun rho => rho;
  rhoPar_to_pPar := fun rho => rho;
  TmTn := fun _ _ _ => 1
|}.

(** Modelled from the spec: [constants::pi] is declared in a header that
    is not among the sources; it is the pi of the normalisation
    [(2 pi)^5 * 8] (section 4.3), as a [double]: the double nearest to
    pi. *)
Definition M_PI : float := 0x1.921fb54442d18p+1.

(** Modelled from the spec: [massSquaredLowerBound] is declared in a
    header that is not among the sources; sections 4.2 and 9 give it as
    [1e-14], here the double nearest to that. *)
Definition constants : Constants float := {|
  pi := M_PI;
  massSquaredLowerBound := 0x1.6849b86a12b9bp-47
|}.

(** One collision element with all particles in equilibrium and matrix
    element 1. *)
Definition elemOps : CollElemOps float unit := {|
  isInEquilibrium := fun _ _ => true;
  setDeltaF := fun ce _ _ => ce;
  evaluateElem := fun _ _ => 1
|}.

Definition elems : list unit := [tt].

(** [calculateIntegrand] and its line-99-to-154 locals in this
    configuration, at [phi2 = phi3 = 0], [cosTheta2 = cosTheta3 = 1]
    (momenta 2 and 3 along the z axis), [m = n = 0]. *)
Definition locals (j k : Z) (p2 : float) (msq : Array4 float) : Locals :=
  kinematics libm basis j k p2 0 0 1 1 msq.

Definition integrand (j k : Z) (p2 : float) (msq : Array4 float)
    : float * list (Diagnostic float) :=
  calculateIntegrand libm basis constants elemOps elems 0 0 j k p2 0 0 1 1 msq.

(** A Vegas stand-in whose every call reports mean 1 and error 1. *)
Definition flatGsl : Gsl float unit := {|
  gsl_fresh := tt;
  gsl_monte_vegas_integrate := fun _ _ _ _ _ st => ((1, 1), st)
|}.

(** The defaults the specification gives for the error goals and
    [maxTries] (section 6), with the [calls] of the code. *)
Definition specOptions : IntegrationOptions := {|
  opt_calls := calls;
  relativeErrorGoal := 0x1.47ae147ae147bp-7;
  absoluteErrorGoal := 0;
  maxTries := 50
|}.

(** Mass squares [(m1^2, m2^2, m3^2, m4^2)] of the runs. *)
Definition massless : Array4 float := mkArray4 0 0 0 0.
Definition heavy3 : Array4 float := mkArray4 0 0 1 0.
Definition tachyonic3 : Array4 float := mkArray4 0 0 (-100) 0.
Definition tachyonic1 : Array4 float := mkArray4 (-25) 0 (273 / 10) 0.

(** The literal [1e-6] of the specification's root-validity bound. *)
Definition c1em6 : float := 0x1.0c6f7a0b5ed8dp-20.

(** The integrand as GSL sees it in this configuration, with the limits
    of [evaluate] for [maxIntegrationMomentum = 20]. *)
Definition G (msq : Array4 float) : list float -> float :=
  integrandWrapper libm basis constants elemOps elems 0 0 3 4 msq.
Definition lowerLimits : list float := [0; 0; 0; -1; -1].
Definition upperLimits : list float := [20; 2 * M_PI; 2 * M_PI; 1; 1].

(** [evaluate] in this configuration, on a given backend. *)
Definition evaluate_on {St : Type} (gsl : Gsl float St) (msq : Array4 float)
    : (float * float) * St :=
  evaluate_run libm basis constants elemOps elems 20 gsl 0 0 3 4 msq.

End Run.

(** The same sample in exact arithmetic: momenta 2 and 3 along the z
    axis ([sin = 0], [cos = 1] at the angles used), [pZ1 = j],
    [pPar1 = k]. *)
Module RunExact.

Definition libm : Libm R := {|
  std_sin := fun _ => 0%R;
  std_cos := fun _ => 1%R;
  std_acos := fun _ => 0%R
|}.

Definition basis : PolynomialBasis R := {|
  rhoZGrid := IZR;
  rhoParGrid := IZR;
  rhoZ_to_pZ := fun rho => rho;
  rhoPar_to_pPar := fun rho => rho;
  TmTn := fun _ _ _ => 1%R
|}.

Definition massless : Array4 R := mkArray4 0%R 0%R 0%R 0%R.

Definition locals (j k : Z) (p2 : R) (msq : Array4 R) : Locals :=
  kinematics libm basis j k p2 0%R 0%R 1%R 1%R msq.

End RunExact.

(* ===================================================================== *)
(** ** Further definitions used by the properties *)
(* ===================================================================== *)


(** A basis with another [TmTn] and the same grid and momentum maps. *)
Definition withTmTn {F : Type} (basis : PolynomialBasis F)
    (T : Z -> Z -> FourVector F -> F) : PolynomialBasis F := {|
  rhoZGrid := rhoZGrid basis;
  rhoParGrid := rhoParGrid basis;
  rhoZ_to_pZ := rhoZ_to_pZ basis;
  rhoPar_to_pPar := rhoPar_to_pPar basis;
  TmTn := T
|}.

(** Collision elements whose [evaluate] is [c] times the one of
    [elemOps] (a matrix element multiplied by a constant). *)
Definition scaledElemOps {F : Type} {SF : Scalar F} {CollElem : Type}
    (c : F) (elemOps : CollElemOps F CollElem) : CollElemOps F CollElem := {|
  isInEquilibrium := isInEquilibrium elemOps;
  setDeltaF := setDeltaF elemOps;
  evaluateElem := fun ce fourMomenta => Smul c (evaluateElem elemOps ce fourMomenta)
|}.

(** A [double] that is [+0.0] or NaN. *)
Definition zeroOrNaN (x : float) : Prop :=
  x = 0%float \/ PrimFloat.is_nan x = true.

(** [CollisionPython::shouldContinueEvaluation]
    (src/Collision/pybind/src/BindToPython.cpp, lines 36-45). *)
Module Python.

(** [pybind11::error_already_set]. *)
Inductive Exception : Type := error_already_set.

(** A call returns a value or leaves through a thrown exception. *)
Inductive Result (A : Type) : Type :=
| Return (a : A)
| Throw (e : Exception).
Arguments Return {A} a.
Arguments Throw {A} e.

(** Sequencing: what follows a [throw] is not run. *)
Definition andThen {A B : Type} (x : Result A) (f : A -> Result B) : Result B :=
  match x with
  | Return a => f a
  | Throw e => Throw e
  end.

(** The argument is the value [PyErr_CheckSignals()] returns. *)
Definition shouldContinueEvaluation (PyErr_CheckSignals : Z) : Result bool :=
  if negb (PyErr_CheckSignals =? 0)%Z
  then andThen (Throw error_already_set) (fun _ : unit => Return false)
  else Return true.

End Python.

(* ===================================================================== *)
(** * Properties *)
(* ===================================================================== *)

Example lit_0_2 : (2 / 10)%float = c0_2.
Proof. reflexivity. Qed.

Example lit_1em8 : (1 / 100000000)%float = c1em8.
Proof. reflexivity. Qed.

Example lit_relativeErrorGoal :
  (1 / 100)%float = relativeErrorGoal Run.specOptions.
Proof. reflexivity. Qed.

(** ** The loop over the roots *)

Section LoopFacts.
Context {F : Type} {SF : Scalar F}.
Local Open Scope sc_scope.

Variable libm : Libm F.
Variable polynomialBasis : PolynomialBasis F.
Variable cst : Constants F.
Variable CollElem : Type.
Variable elemOps : CollElemOps F CollElem.
Variable collisionElements : list CollElem.

(** One pass, in terms of the test of line 192. *)
Lemma rootPass_cases (m n : Z) (L : Locals) (msq : Array4 F) (p2 p3 : F) :
  rootPass polynomialBasis cst elemOps collisionElements m n L msq p2 p3 =
    (rootDiagnostics L msq p3,
     if energyTestPasses L msq p3
     then Some (rootContribution polynomialBasis cst elemOps collisionElements m n L msq p3)
     else None).
Proof.
  unfold rootPass, rootDiagnostics, energyTestPasses, rootContribution, E4At.
  destruct (energy (at3 (fourMomentaAt L msq p3)) <? c0_0); cbn [negb].
  - reflexivity.
  - now rewrite app_nil_r.
Qed.

(** The loop adds the contributions of the roots that pass the energy
    test, in order, and appends what each pass writes. *)
Lemma rootLoop_spec (m n : Z) (L : Locals) (msq : Array4 F) (p2 : F)
    (roots : list F) :
  forall (acc : F) (cerr : list (Diagnostic F)),
    rootLoop polynomialBasis cst elemOps collisionElements m n L msq p2 roots acc cerr =
      (fold_left Sadd
         (map (rootContribution polynomialBasis cst elemOps collisionElements m n L msq)
              (List.filter (energyTestPasses L msq) roots))
         acc,
       cerr ++ flat_map (rootDiagnostics L msq) roots).
Proof.
  induction roots as [| p3 roots IH]; intros acc cerr.
  - cbn. now rewrite app_nil_r.
  - unfold rootLoop in *. cbn [fold_left flat_map List.filter].
    rewrite rootPass_cases.
    destruct (energyTestPasses L msq p3); rewrite IH; cbn [map fold_left];
      now rewrite <- app_assoc.
Qed.

(** [p2] reaches a pass through [kinPrefac] only, and [kinPrefac] is not
    read: the pass is the same for every [p2]. *)
Lemma rootPass_ignores_kinPrefac (m n : Z) (L : Locals) (msq : Array4 F)
    (p2 p2' p3 : F) :
  rootPass polynomialBasis cst elemOps collisionElements m n L msq p2 p3
  = rootPass polynomialBasis cst elemOps collisionElements m n L msq p2' p3.
Proof.
  now rewrite !rootPass_cases.
Qed.


Lemma acceptedRoots_In (L : Locals) (msq : Array4 F) (p3 : F) :
  In p3 (acceptedRoots L msq) <->
  In p3 (rootp3 L) /\ (E4At L msq p3 <? c0_0) = false.
Proof.
  unfold acceptedRoots, energyTestPasses. rewrite filter_In.
  now rewrite Bool.negb_true_iff.
Qed.

Lemma kinematicRecords_In (L : Locals) (msq : Array4 F)
    (rec : F * Array4 (FourVector F)) :
  In rec (kinematicRecords L msq) <->
  snd rec = fourMomentaAt L msq (fst rec)
  /\ In (fst rec) (rootp3 L)
  /\ (E4At L msq (fst rec) <? c0_0) = false.
Proof.
  unfold kinematicRecords. rewrite in_map_iff. split.
  - intros (p3 & <- & Hacc). apply acceptedRoots_In in Hacc. cbn [fst snd]. tauto.
  - intros (Hrec & Hacc). exists (fst rec). split.
    + rewrite <- Hrec. now destruct rec.
    + now apply acceptedRoots_In.
Qed.

End LoopFacts.

(** ** Which roots contribute, what is written, and the value returned *)

Section IntegrandFacts.
Context {F : Type} {SF : Scalar F}.
Local Open Scope sc_scope.

Variable libm : Libm F.
Variable polynomialBasis : PolynomialBasis F.
Variable cst : Constants F.
Variable CollElem : Type.
Variable elemOps : CollElemOps F CollElem.
Variable collisionElements : list CollElem.

(** The value and the output of [calculateIntegrand] in closed form. *)
Lemma calculateIntegrand_spec (m n j k : Z)
    (p2 phi2 phi3 cosTheta2 cosTheta3 : F) (msq : Array4 F) :
  let L := kinematics libm polynomialBasis j k p2 phi2 phi3 cosTheta2 cosTheta3 msq in
  calculateIntegrand libm polynomialBasis cst elemOps collisionElements
    m n j k p2 phi2 phi3 cosTheta2 cosTheta3 msq
  = (fold_left Sadd
       (map (rootContribution polynomialBasis cst elemOps collisionElements m n L msq)
            (acceptedRoots L msq))
       c0_0
     / pi2Pow5 cst / c8_0,
     flat_map (rootDiagnostics L msq) (rootp3 L)).
Proof.
  intros L. unfold calculateIntegrand. fold L.
  rewrite rootLoop_spec. reflexivity.
Qed.




Lemma fold_left_Sadd_map (A : Type) (g : A -> F) (l : list A) :
  forall acc : F,
    fold_left Sadd (map g l) acc = fold_left (fun total x => total + g x) l acc.
Proof.
  induction l as [| x l IH]; intros acc; [reflexivity |].
  cbn [map fold_left]. apply IH.
Qed.

(** The value returned, written out: over the roots with [p3 >= 0] for
    which the test [E4 < 0] fails, in order, the sum over
    [collisionElements] of [collElem.evaluate] at the momenta of the
    root is divided by [|gDer|] and added up; the total is divided by
    [(2 pi)^5] and then by [8].  [kinPrefac] does not occur. *)
Lemma calculateIntegrand_value_explicit (m n j k : Z)
    (p2 phi2 phi3 cosTheta2 cosTheta3 : F) (msq : Array4 F) :
  let L := kinematics libm polynomialBasis j k p2 phi2 phi3 cosTheta2 cosTheta3 msq in
  fst (calculateIntegrand libm polynomialBasis cst elemOps collisionElements
         m n j k p2 phi2 phi3 cosTheta2 cosTheta3 msq)
  = fold_left
      (fun fullIntegrand p3 =>
         let fourMomenta := fourMomentaAt L msq p3 in
         fullIntegrand
         + fold_left
             (fun integrand collElem =>
                integrand
                + evaluateElem elemOps
                    (fixDeltaF polynomialBasis elemOps m n fourMomenta collElem)
                    fourMomenta)
             collisionElements c0_0
           / Sabs (gDer cst L msq p3))
      (List.filter
         (fun p3 => negb (energy (at3 (fourMomentaAt L msq p3)) <? c0_0))
         (rootp3 L))
      c0_0
    / ((c2_0 * pi cst) * (c2_0 * pi cst) * (c2_0 * pi cst) * (c2_0 * pi cst)
       * (c2_0 * pi cst))
    / c8_0.
Proof.
  intros L. subst L. rewrite calculateIntegrand_spec. cbn [fst].
  rewrite fold_left_Sadd_map. reflexivity.
Qed.

End IntegrandFacts.

(** The records are the ones that enter the sum: the value of
    [calculateIntegrand] is computed from them alone. *)
Lemma calculateIntegrand_from_records {F : Type} {SF : Scalar F}
    (libm : Libm F) (polynomialBasis : PolynomialBasis F) (cst : Constants F)
    (CollElem : Type) (elemOps : CollElemOps F CollElem)
    (collisionElements : list CollElem) (m n j k : Z)
    (p2 phi2 phi3 cosTheta2 cosTheta3 : F) (msq : Array4 F) :
  let L := kinematics libm polynomialBasis j k p2 phi2 phi3 cosTheta2 cosTheta3 msq in
  fst (calculateIntegrand libm polynomialBasis cst elemOps collisionElements
         m n j k p2 phi2 phi3 cosTheta2 cosTheta3 msq)
  = (fold_left Sadd
       (map (fun rec =>
               sumCollisionElements polynomialBasis elemOps collisionElements m n (snd rec)
               / Sabs (gDer cst L msq (fst rec)))%sc
            (kinematicRecords L msq))
       c0_0
     / pi2Pow5 cst / c8_0)%sc.
Proof.
  intros L. subst L. rewrite calculateIntegrand_spec. cbn [fst].
  unfold kinematicRecords. rewrite map_map. reflexivity.
Qed.

(** X7.  In exact arithmetic the momenta of lines 179-190 conserve
    four-momentum at every [p3]: [P1 + P2 = P3 + P4]. *)
Lemma fourMomenta_conserved_exact (L : Locals) (msq : Array4 R) (p3 : R) :
  let P := fourMomentaAt L msq p3 in
  FVadd (at0 P) (at1 P) = FVadd (at2 P) (at3 P).
Proof.
  cbv [fourMomentaAt FVadd FVsub FVscale setEnergy at0 at1 at2 at3
       fv0 fv1 fv2 fv3 Sadd Ssub Smul exactReal].
  f_equal; ring.
Qed.

(** In exact arithmetic dividing by [pi2Pow5] and then by [8] is dividing
    by [(2 pi)^5 * 8]. *)
Lemma normalisation_exact (cst : Constants R) (x : R) :
  (x / pi2Pow5 cst / c8_0)%sc = (x / ((2 * pi cst) ^ 5 * 8))%R.
Proof.
  cbv [pi2Pow5 Sdiv Smul c2_0 c8_0 exactReal pow].
  unfold Rdiv. rewrite !Rinv_mult, Rinv_1. ring.
Qed.

(* ===================================================================== *)
(** ** binary64: NaN, and the calls without an accepted root (claim C10) *)
(* ===================================================================== *)

Module Binary64.
Import FloatOps FloatAxioms SpecFloat.
Local Open Scope float_scope.

Example lit_1em6 : 1 / 1000000 = Run.c1em6.
Proof. reflexivity. Qed.

(** The square root of a negative number is NaN. *)
Lemma sqrt_negative_nan (x : float) :
  (x <? 0) = true -> Prim2SF (PrimFloat.sqrt x) = S754_nan.
Proof.
  rewrite ltb_spec, sqrt_spec. change (Prim2SF 0) with (S754_zero false).
  destruct (Prim2SF x) as [s | s | | s m e]; try destruct s; cbn; congruence.
Qed.

(** NaN goes through the arithmetic of the root formula. *)
Lemma sub_nan_r (x y : float) :
  Prim2SF y = S754_nan -> Prim2SF (x - y) = S754_nan.
Proof.
  intros H. rewrite sub_spec, H. unfold SF64sub, SFsub. now destruct (Prim2SF x).
Qed.

Lemma add_nan_r (x y : float) :
  Prim2SF y = S754_nan -> Prim2SF (x + y) = S754_nan.
Proof.
  intros H. rewrite add_spec, H. unfold SF64add, SFadd. now destruct (Prim2SF x).
Qed.

Lemma mul_nan_r (x y : float) :
  Prim2SF y = S754_nan -> Prim2SF (x * y) = S754_nan.
Proof.
  intros H. rewrite mul_spec, H. unfold SF64mul, SFmul. now destruct (Prim2SF x).
Qed.

Lemma div_nan_l (x y : float) :
  Prim2SF x = S754_nan -> Prim2SF (x / y) = S754_nan.
Proof.
  intros H. rewrite div_spec, H. reflexivity.
Qed.

(** Every comparison with NaN is false. *)
Lemma leb_nan_r (x y : float) :
  Prim2SF y = S754_nan -> (x <=? y) = false.
Proof.
  intros H. rewrite leb_spec, H. unfold SFleb, SFcompare. now destruct (Prim2SF x).
Qed.

(** A number for which [x < 0] fails is [>= 0] or NaN. *)
Lemma not_lt_zero_cases (x : float) :
  (x <? 0) = false -> (0 <=? x) = true \/ Prim2SF x = S754_nan.
Proof.
  rewrite ltb_spec, leb_spec. change (Prim2SF 0) with (S754_zero false).
  destruct (Prim2SF x) as [s | s | | s m e]; try destruct s; cbn; auto; discriminate.
Qed.

(** The [E4] of a record that enters the collision-element sum is
    [>= 0] or NaN. *)
Lemma record_energy_nonneg_or_nan (L : Locals) (msq : Array4 float)
    (rec : float * Array4 (FourVector float)) :
  In rec (kinematicRecords L msq) ->
  (energy (at3 (snd rec)) >=? c0_0)%sc = true
  \/ Prim2SF (energy (at3 (snd rec))) = S754_nan.
Proof.
  intros Hin. apply kinematicRecords_In in Hin. destruct Hin as (Hrec & _ & HE4).
  rewrite Hrec. now apply not_lt_zero_cases.
Qed.

(** With a negative discriminant both roots are NaN and fail [>= 0.0]. *)
Lemma negative_discriminant_rejects (libm : Libm float)
    (polynomialBasis : PolynomialBasis float) (j k : Z)
    (p2 phi2 phi3 cosTheta2 cosTheta3 : float) (msq : Array4 float) :
  let L := kinematics libm polynomialBasis j k p2 phi2 phi3 cosTheta2 cosTheta3 msq in
  (discriminant L <? c0_0)%sc = true ->
  (root1 L >=? c0_0)%sc = false /\ (root2 L >=? c0_0)%sc = false.
Proof.
  intros L H. apply sqrt_negative_nan in H.
  split; apply leb_nan_r, div_nan_l, mul_nan_r.
  - apply sub_nan_r, H.
  - apply add_nan_r, H.
Qed.

(** A negative discriminant does occur in binary64 (the exact
    discriminant of the code's quadratic, [4 kappa^2 eps^2], cannot be
    negative): here it is rounding that makes it so. *)
Example negative_discriminant_occurs :
  (discriminant (Run.locals 3 4 0 Run.tachyonic1) <? 0) = true
  /\ Run.integrand 3 4 0 Run.tachyonic1 = (0, []).
Proof. split; reflexivity. Qed.

(** C10.  When neither root passes [>= 0.0], and in particular when the
    discriminant is negative (both roots are then NaN), the loop over the
    roots is not entered: [calculateIntegrand] returns [0.0] (the value
    [0.0 / pi2Pow5 / 8.0], with [constants::pi] the double nearest to pi)
    and writes nothing. *)
Theorem C10_no_accepted_root_returns_zero (libm : Libm float)
    (polynomialBasis : PolynomialBasis float) (cst : Constants float)
    (CollElem : Type) (elemOps : CollElemOps float CollElem)
    (collisionElements : list CollElem) (m n j k : Z)
    (p2 phi2 phi3 cosTheta2 cosTheta3 : float) (msq : Array4 float) :
  let L := kinematics libm polynomialBasis j k p2 phi2 phi3 cosTheta2 cosTheta3 msq in
  pi cst = Run.M_PI ->
  ((root1 L >=? c0_0)%sc = false /\ (root2 L >=? c0_0)%sc = false)
  \/ (discriminant L <? c0_0)%sc = true ->
  calculateIntegrand libm polynomialBasis cst elemOps collisionElements
    m n j k p2 phi2 phi3 cosTheta2 cosTheta3 msq
  = (0, []).
Proof.
  intros L Hpi H.
  assert ((root1 L >=? c0_0)%sc = false /\ (root2 L >=? c0_0)%sc = false)
    as [H1 H2].
  { destruct H as [H | H]; [exact H |].
    now apply negative_discriminant_rejects. }
  unfold calculateIntegrand. fold L. unfold rootp3. rewrite H1, H2.
  cbn [app rootLoop fold_left]. unfold pi2Pow5. rewrite Hpi. reflexivity.
Qed.

(** Momenta 1, 2 and 3 collinear and massless: [A = 0], both roots are
    [0/0]. *)
Lemma C10_witness : Run.integrand 3 0 1 Run.massless = (0, []).
Proof.
  apply (@C10_no_accepted_root_returns_zero Run.libm Run.basis Run.constants
           unit Run.elemOps Run.elems 0 0 3 0 1 0 0 1 1 Run.massless).
  - reflexivity.
  - left. split; reflexivity.
Defined.

(** ** binary64: the integrand at particular samples *)

Local Open Scope sc_scope.

(** Two floats that differ (bit for bit, as [=] on [float] is). *)
Lemma float_neq (x y : float) : PrimFloat.Leibniz.eqb x y = false -> x <> y.
Proof.
  intros H E. apply Leibniz.eqb_spec in E. congruence.
Qed.

(** C1, at the sample [p1 = (0, 4, 3)], [p2 = (0, 0, 1)], [p3Hat = z],
    masses [(0, 0, 1, 0)]: [kappa = 5], [eps = 12], [delta = 8].  The
    code's constant term is [C = kappa^2 = 25], not
    [kappa^2 - eps^2 m3^2 = -119].  Its only root with [p3 >= 0] is
    [1.25], a root of the code's quadratic; the quadratic of the
    specification takes the value [-144] there, [g(1.25)] is below [-4],
    and the root contributes to the integrand all the same. *)
Theorem C1_constant_term_without_mass :
  let msq := Run.heavy3 in
  let L := Run.locals 3 4 1 msq in
  (kappa L, eps L, delta L) = (5, 12, 8)
  /\ (coefA L, coefB L, coefC L) = (-80, 80, 25)
  /\ kappa L * kappa L - eps L * eps L * at2 msq = -119
  /\ rootp3 L = [1.25]
  /\ coefA L * 1.25 * 1.25 + coefB L * 1.25 + coefC L = 0
  /\ coefA L * 1.25 * 1.25 + coefB L * 1.25
     + (kappa L * kappa L - eps L * eps L * at2 msq) = -144
  /\ (funcG L msq 1.25 <? -4) = true
  /\ contributes Run.basis Run.constants Run.elemOps Run.elems 0 0 L msq 1 1.25.
Proof.
  cbv zeta. do 7 (split; [reflexivity |]).
  split; [vm_compute; now left | eexists; vm_compute; reflexivity].
Qed.



(** C5, at the massless sample with [p2 = 2]: the root is [p3 = 2], the
    collision elements sum to [1], [kinPrefac = p2 * p3 = 4] and
    [gDer = delta - eps = -4], so the prefactor of the specification is
    [4 * 1/4 = 1].  The code returns [1/4 / (2 pi)^5 / 8]: the sum was
    divided by [|gDer|] and never multiplied by [kinPrefac]. *)
Theorem C5_kinPrefac_not_applied :
  let msq := Run.massless in
  let L := Run.locals 3 4 2 msq in
  rootp3 L = [2]
  /\ sumCollisionElements Run.basis Run.elemOps Run.elems 0 0 (fourMomentaAt L msq 2) = 1
  /\ kinPrefac Run.constants L msq 2 2 = 4
  /\ gDer Run.constants L msq 2 = -4
  /\ specPrefactor Run.constants L msq 2 2 = 1
  /\ Run.integrand 3 4 2 msq = (1 / 4 / pi2Pow5 Run.constants / 8, [])
  /\ fst (Run.integrand 3 4 2 msq)
     <> 1 * specPrefactor Run.constants L msq 2 2 / pi2Pow5 Run.constants / 8.
Proof.
  cbv zeta. do 6 (split; [reflexivity |]).
  apply float_neq. reflexivity.
Qed.

(** C6, at the sample of C5 (massless, [p1 = (0, 4, 3)], [p2 = 2], one
    collision element with [evaluate = 1]).  The one accepted root is
    [p3 = 2]; the element's contribution, [evaluate] times the prefactor
    [kinPrefac / |gDer| = 4 / 4], is [1], so the sum of all contributions
    divided by [(2 pi)^5 * 8] is [1 / ((2 pi)^5 * 8)].  The code returns
    [1/4 / (2 pi)^5 / 8], a quarter of it: what it divides by
    [(2 pi)^5] and [8] is the sum of the [evaluate] values over
    [|gDer|], without [kinPrefac]. *)
Theorem C6_normalised_sum_lacks_kinPrefac :
  let msq := Run.massless in
  let L := Run.locals 3 4 2 msq in
  let specValue :=
    specSampleValue Run.basis Run.constants Run.elemOps Run.elems c1em8 0 0 L msq 2 in
  specAcceptedRoots c1em8 L msq = [2]
  /\ acceptedRoots L msq = [2]
  /\ specContribution Run.basis Run.constants Run.elemOps 0 0 L msq 2 2 tt = 1
  /\ specValue = 1 / (pi2Pow5 Run.constants * 8)
  /\ fst (Run.integrand 3 4 2 msq) = 1 / 4 / pi2Pow5 Run.constants / 8
  /\ 4 * fst (Run.integrand 3 4 2 msq) = specValue
  /\ fst (Run.integrand 3 4 2 msq) <> specValue.
Proof.
  cbv zeta. do 6 (split; [reflexivity |]).
  apply float_neq. reflexivity.
Qed.




End Binary64.

(* ===================================================================== *)
(** ** The Monte Carlo driver (claims C3, C7) *)
(* ===================================================================== *)

Section MonteCarloFacts.
Context {F : Type} {SF : Scalar F}.

Variable libm : Libm F.
Variable polynomialBasis : PolynomialBasis F.
Variable cst : Constants F.
Variable CollElem : Type.
Variable elemOps : CollElemOps F CollElem.
Variable collisionElements : list CollElem.
Variable maxIntegrationMomentum : F.

(** [evaluate] is two calls of the Vegas routine on one state: the first
    with [0.2*calls] samples, the second with [calls] samples; it returns
    what the second call reports. *)
Lemma evaluate_run_two_calls (St : Type) (gsl : Gsl F St) (m n j k : Z)
    (msq : Array4 F) :
  let G := integrandWrapper libm polynomialBasis cst elemOps collisionElements m n j k msq in
  let xl := [c0_0; c0_0; c0_0; - c1_0; - c1_0]%sc in
  let xu := [maxIntegrationMomentum; c2_0 * pi cst; c2_0 * pi cst; c1_0; c1_0]%sc in
  let warmup := gsl_monte_vegas_integrate gsl G xl xu 5 warmupCalls (gsl_fresh gsl) in
  let production := gsl_monte_vegas_integrate gsl G xl xu 5 calls (snd warmup) in
  evaluate_run libm polynomialBasis cst elemOps collisionElements
    maxIntegrationMomentum gsl m n j k msq = production.
Proof.
  cbv zeta. unfold evaluate_run.
  destruct (gsl_monte_vegas_integrate gsl _ _ _ 5 warmupCalls (gsl_fresh gsl))
    as [r0 s0]. cbn [snd].
  now destruct (gsl_monte_vegas_integrate gsl _ _ _ 5 calls s0) as [[mean error] s1].
Qed.

(** Recording the sample counts does not change what is computed, and
    the record of [evaluate] is the two counts. *)
Lemma evaluate_run_recording (St : Type) (gsl : Gsl F St) (m n j k : Z)
    (msq : Array4 F) :
  evaluate_run libm polynomialBasis cst elemOps collisionElements
    maxIntegrationMomentum (recording gsl) m n j k msq
  = (evaluate libm polynomialBasis cst elemOps collisionElements
       maxIntegrationMomentum gsl m n j k msq,
     (snd (evaluate_run libm polynomialBasis cst elemOps collisionElements
             maxIntegrationMomentum gsl m n j k msq),
      [warmupCalls; calls])).
Proof.
  unfold evaluate. rewrite !evaluate_run_two_calls. cbv zeta.
  cbn [recording gsl_monte_vegas_integrate gsl_fresh fst snd].
  destruct (gsl_monte_vegas_integrate gsl _ _ _ 5 warmupCalls (gsl_fresh gsl))
    as [r0 s0]. cbn [fst snd app].
  now destruct (gsl_monte_vegas_integrate gsl _ _ _ 5 calls s0) as [r1 s1].
Qed.

(** C7, as the code has it.  [evaluate] takes no integration options:
    [calls] is the constant 100000, and after the warmup the integrator
    is called exactly once more, with 100000 samples, whatever the
    backend and the sample. *)
Theorem C7_production_samples_fixed (St : Type) (gsl : Gsl F St)
    (m n j k : Z) (msq : Array4 F) :
  calls = 100000%Z
  /\ tl (snd (snd (evaluate_run libm polynomialBasis cst elemOps collisionElements
                     maxIntegrationMomentum (recording gsl) m n j k msq)))
     = [100000%Z].
Proof.
  split; [reflexivity |]. rewrite evaluate_run_recording. reflexivity.
Qed.

End MonteCarloFacts.

Module MonteCarlo64.
Local Open Scope float_scope.

(** [0.2 * 100000] is [20000.0] in binary64, and [20000] as a [size_t]. *)
Lemma warmupCalls_binary64 : warmupCalls (F := float) = 20000%Z.
Proof. reflexivity. Qed.

(** C3, as the code has it.  [evaluate] runs one warmup of
    [0.2 * calls = 20000] samples on a fresh generator and grid, then
    exactly one production run of [calls = 100000] samples on the state
    the warmup left, and returns the pair [(mean, error)] of that run.
    There is no error goal, no count of tries and no converged flag. *)
Theorem C3_warmup_then_one_production_run (libm : Libm float)
    (polynomialBasis : PolynomialBasis float) (cst : Constants float)
    (CollElem : Type) (elemOps : CollElemOps float CollElem)
    (collisionElements : list CollElem) (maxIntegrationMomentum : float)
    (St : Type) (gsl : Gsl float St) (m n j k : Z) (msq : Array4 float) :
  let G := integrandWrapper libm polynomialBasis cst elemOps collisionElements m n j k msq in
  let xl := [0; 0; 0; -1; -1] in
  let xu := [maxIntegrationMomentum; 2 * pi cst; 2 * pi cst; 1; 1] in
  let warmup := gsl_monte_vegas_integrate gsl G xl xu 5 20000 (gsl_fresh gsl) in
  let production := gsl_monte_vegas_integrate gsl G xl xu 5 100000 (snd warmup) in
  evaluate libm polynomialBasis cst elemOps collisionElements
    maxIntegrationMomentum gsl m n j k msq = fst production
  /\ snd (snd (evaluate_run libm polynomialBasis cst elemOps collisionElements
                 maxIntegrationMomentum (recording gsl) m n j k msq))
     = [20000; 100000]%Z.
Proof.
  cbv zeta. split.
  - unfold evaluate. rewrite evaluate_run_two_calls. reflexivity.
  - rewrite evaluate_run_recording. reflexivity.
Qed.

(** C3 as stated fails on a backend whose every run reports mean 1 and
    error 1: the code stops after one production run although
    [sigma/|mu| = 1 > 0.01], [sigma = 1 > 0] and one try is fewer than
    [maxTries = 50]; the protocol of the specification makes 50 production
    runs there and reports a third component, [converged = false]. *)
Lemma C3_counterexample :
  Run.evaluate_on (recording Run.flatGsl) Run.massless
  = ((1, 1), (tt, [20000; 100000]%Z))
  /\ goalMet Run.specOptions (1, 1) = false
  /\ (1 < maxTries Run.specOptions)%nat
  /\ specIntegrate (recording Run.flatGsl) Run.specOptions
       (Run.G Run.massless) Run.lowerLimits Run.upperLimits
     = ((1, 1, false), (tt, 20000%Z :: repeat 100000%Z 50)).
Proof.
  split; [reflexivity |]. split; [reflexivity |]. split; [cbn; lia |].
  vm_compute. reflexivity.
Qed.

(** C7 as stated fails: the production run asks for 100000 samples, not
    50000. *)
Lemma C7_counterexample :
  calls <> 50000%Z
  /\ snd (snd (Run.evaluate_on (recording Run.flatGsl) Run.massless))
     = [20000; 100000]%Z.
Proof.
  split; [discriminate | reflexivity].
Qed.

End MonteCarlo64.

(* ===================================================================== *)
(** ** The quadratic in exact arithmetic (claim C1) *)
(* ===================================================================== *)

(** In every arithmetic the code's constant term is [kappa * kappa]; the
    mass of particle 3 does not occur in it. *)
Lemma coefC_is_kappa_squared {F : Type} {SF : Scalar F} (libm : Libm F)
    (polynomialBasis : PolynomialBasis F) (j k : Z)
    (p2 phi2 phi3 cosTheta2 cosTheta3 : F) (msq : Array4 F) :
  let L := kinematics libm polynomialBasis j k p2 phi2 phi3 cosTheta2 cosTheta3 msq in
  coefA L = (delta L * delta L - eps L * eps L)%sc
  /\ coefB L = (c2_0 * kappa L * delta L)%sc
  /\ coefC L = (kappa L * kappa L)%sc.
Proof.
  cbv zeta. repeat split.
Qed.

(** In exact arithmetic a zero of [g] is a root of the quadratic with
    [A = delta^2 - eps^2], [B = 2 kappa delta] and
    [C = kappa^2 - eps^2 m3^2]: the constant term of the specification,
    not the one of the code. *)
Lemma funcG_zero_quadratic_exact (libm : Libm R)
    (polynomialBasis : PolynomialBasis R) (j k : Z)
    (p2 phi2 phi3 cosTheta2 cosTheta3 : R) (msq : Array4 R) (p3 : R) :
  let L := kinematics libm polynomialBasis j k p2 phi2 phi3 cosTheta2 cosTheta3 msq in
  (0 <= p3 * p3 + at2 msq)%R ->
  funcG L msq p3 = 0%R ->
  (coefA L * (p3 * p3) + coefB L * p3
   + (kappa L * kappa L - eps L * eps L * at2 msq) = 0)%R.
Proof.
  intros L Hpos Hg.
  destruct (coefC_is_kappa_squared libm polynomialBasis j k p2 phi2 phi3
              cosTheta2 cosTheta3 msq) as (HA & HB & _).
  fold L in HA, HB. rewrite HA, HB.
  unfold funcG in Hg. cbv [Sadd Ssub Smul Ssqrt c2_0 exactReal] in *.
  pose proof (sqrt_sqrt _ Hpos) as Hs.
  set (s := R_sqrt.sqrt (p3 * p3 + at2 msq)) in *.
  assert (Hk : (kappa L + delta L * p3 = eps L * s)%R) by lra.
  replace ((delta L * delta L - eps L * eps L) * (p3 * p3)
           + 2 * kappa L * delta L * p3
           + (kappa L * kappa L - eps L * eps L * at2 msq))%R
    with ((kappa L + delta L * p3) * (kappa L + delta L * p3)
          - eps L * eps L * (p3 * p3 + at2 msq))%R by ring.
  rewrite Hk, <- Hs. ring.
Qed.

(** The massless sample with [p1 = (0, 4, 3)], [p2 = (0, 0, 1)]:
    [g(1) = 4 + 8 - 12 = 0], and [p3 = 1] is a root of the quadratic. *)
Example funcG_zero_quadratic_exact_at_1 :
  let L := RunExact.locals 3 4 1%R RunExact.massless in
  funcG L RunExact.massless 1%R = 0%R
  /\ (coefA L * (1 * 1) + coefB L * 1
      + (kappa L * kappa L - eps L * eps L * at2 RunExact.massless) = 0)%R.
Proof.
  intros L.
  assert (H : funcG L RunExact.massless 1%R = 0%R).
  { cbv [L RunExact.locals RunExact.massless RunExact.libm RunExact.basis
         kinematics funcG FVdot FVscale fv0 fv1 fv2 fv3 at0 at1 at2 at3
         kappa eps delta Sadd Ssub Smul Sopp Ssqrt c0_0 c1_0 c2_0 exactReal
         std_sin std_cos std_acos rhoZGrid rhoParGrid rhoZ_to_pZ rhoPar_to_pPar].
    replace (3 * 3 + 4 * 4)%R with (5 * 5)%R by ring.
    rewrite (sqrt_square 5) by lra.
    replace (5 * 5 + 0)%R with (5 * 5)%R by ring.
    replace (1 * 1 + 0)%R with (1 * 1)%R by ring.
    rewrite (sqrt_square 5), (sqrt_square 1) by lra. ring. }
  split; [exact H |].
  apply (@funcG_zero_quadratic_exact RunExact.libm RunExact.basis 3 4 1 0 0 1 1
           RunExact.massless 1%R); [cbn; lra | exact H].
Qed.

(* ===================================================================== *)
(** ** The catalogue (claims C8, C9) *)
(* ===================================================================== *)

Module TensorFacts.
Import Tensor.







(** C8.  [setMatrixElementFile] always returns, never fails; the value
    returned is [false] exactly when there is no file at the path, and
    [true] otherwise. *)
Theorem C8_setMatrixElementFile_reports_presence (files : gset string)
    (filePath : string) (t : CollisionTensor) :
  exists (found : bool) (t' : CollisionTensor),
    setMatrixElementFile files filePath t = Returns (found, t')
    /\ (found = false <-> filePath ∉ files)
    /\ (found = true <-> filePath ∈ files).
Proof.
  unfold setMatrixElementFile. eexists _, _. split; [reflexivity |].
  rewrite bool_decide_eq_false, bool_decide_eq_true. tauto.
Qed.

End TensorFacts.

(* ===================================================================== *)
(** * Further properties of [calculateIntegrand] *)
(* ===================================================================== *)

Section Accounting.
Context {F : Type} {SF : Scalar F}.
Local Open Scope sc_scope.

Variable libm : Libm F.
Variable polynomialBasis : PolynomialBasis F.
Variable cst : Constants F.
Variable CollElem : Type.
Variable elemOps : CollElemOps F CollElem.
Variable collisionElements : list CollElem.






(** X2.  [calculateIntegrand] writes nothing exactly when every root with
    [p3 >= 0] passes both tests: [|g(p3)| > 1e-8] fails and [E4 < 0]
    fails. *)
Theorem silent_iff_all_roots_pass (m n j k : Z)
    (p2 phi2 phi3 cosTheta2 cosTheta3 : F) (msq : Array4 F) :
  let L := kinematics libm polynomialBasis j k p2 phi2 phi3 cosTheta2 cosTheta3 msq in
  snd (calculateIntegrand libm polynomialBasis cst elemOps collisionElements
         m n j k p2 phi2 phi3 cosTheta2 cosTheta3 msq) = []
  <-> (forall p3, In p3 (rootp3 L) ->
         (Sabs (funcG L msq p3) >? c1em8) = false
         /\ (E4At L msq p3 <? c0_0) = false).
Proof.
  intros L. subst L. rewrite calculateIntegrand_spec. cbn [snd].
  set (L := kinematics libm polynomialBasis j k p2 phi2 phi3 cosTheta2 cosTheta3 msq).
  induction (rootp3 L) as [| r roots IH]; cbn [flat_map In].
  - split; [intros _ p3 [] | reflexivity].
  - split.
    + intros H. apply app_eq_nil in H. destruct H as [Hr Hrest].
      intros p3 [<- | Hin]; [| now apply IH].
      unfold rootDiagnostics in Hr.
      destruct (Sabs (funcG L msq r) >? c1em8); destruct (E4At L msq r <? c0_0);
        (discriminate Hr || now split).
    + intros H.
      destruct (H r (or_introl eq_refl)) as [Hg HE].
      unfold rootDiagnostics at 1. rewrite Hg, HE. cbn [app].
      apply IH. intros p3 Hin. apply H. now right.
Qed.

End Accounting.

Section Equilibrium.
Context {F : Type} {SF : Scalar F}.
Local Open Scope sc_scope.

Variable libm : Libm F.
Variable polynomialBasis : PolynomialBasis F.
Variable cst : Constants F.
Variable CollElem : Type.
Variable elemOps : CollElemOps F CollElem.
Variable collisionElements : list CollElem.

(** An element all of whose four slots are in equilibrium is evaluated
    as it is stored: lines 209-213 set no [deltaF]. *)
Lemma fixDeltaF_equilibrium (basis : PolynomialBasis F) (m n : Z)
    (fourMomenta : Array4 (FourVector F)) (ce : CollElem) :
  (forall i, (i < 4)%nat -> isInEquilibrium elemOps ce i = true) ->
  fixDeltaF basis elemOps m n fourMomenta ce = ce.
Proof.
  intros H. unfold fixDeltaF. cbn [fold_left].
  rewrite (H 0%nat) by lia. cbn [negb].
  rewrite (H 1%nat) by lia. cbn [negb].
  rewrite (H 2%nat) by lia. cbn [negb].
  rewrite (H 3%nat) by lia. reflexivity.
Qed.

Lemma sumCollisionElements_equilibrium (basis basis' : PolynomialBasis F)
    (m n m' n' : Z) (fourMomenta : Array4 (FourVector F)) (elems : list CollElem) :
  (forall ce i, In ce elems -> (i < 4)%nat -> isInEquilibrium elemOps ce i = true) ->
  sumCollisionElements basis elemOps elems m n fourMomenta
  = sumCollisionElements basis' elemOps elems m' n' fourMomenta.
Proof.
  unfold sumCollisionElements. generalize (c0_0 : F).
  induction elems as [| ce elems IH]; intros acc H; [reflexivity |].
  cbn [fold_left].
  rewrite !fixDeltaF_equilibrium by (intros i Hi; apply H; [now left | exact Hi]).
  apply IH. intros ce' i Hin. apply H. now right.
Qed.

(** X3.  When every slot of every collision element is in equilibrium, the
    integrand does not depend on the polynomial indices [(m, n)] and does
    not use [TmTn]: it is the same for any other indices and any other
    basis polynomials. *)
Theorem equilibrium_elements_ignore_polynomials (m n m' n' j k : Z)
    (T : Z -> Z -> FourVector F -> F)
    (p2 phi2 phi3 cosTheta2 cosTheta3 : F) (msq : Array4 F) :
  (forall ce i, In ce collisionElements -> (i < 4)%nat ->
                isInEquilibrium elemOps ce i = true) ->
  calculateIntegrand libm (withTmTn polynomialBasis T) cst elemOps collisionElements
    m' n' j k p2 phi2 phi3 cosTheta2 cosTheta3 msq
  = calculateIntegrand libm polynomialBasis cst elemOps collisionElements
      m n j k p2 phi2 phi3 cosTheta2 cosTheta3 msq.
Proof.
  intros H. rewrite !calculateIntegrand_spec. cbv zeta.
  change (kinematics libm (withTmTn polynomialBasis T) j k p2 phi2 phi3
            cosTheta2 cosTheta3 msq)
    with (kinematics libm polynomialBasis j k p2 phi2 phi3 cosTheta2 cosTheta3 msq).
  set (L := kinematics libm polynomialBasis j k p2 phi2 phi3 cosTheta2 cosTheta3 msq).
  rewrite (map_ext
             (rootContribution (withTmTn polynomialBasis T) cst elemOps
                collisionElements m' n' L msq)
             (rootContribution polynomialBasis cst elemOps collisionElements m n L msq)).
  - reflexivity.
  - intros p3. unfold rootContribution. f_equal.
    now apply sumCollisionElements_equilibrium.
Qed.

End Equilibrium.

(** The run configuration has its one element in equilibrium: indices
    [(2, 1)] and a basis polynomial that is NaN everywhere give the
    value of indices [(0, 0)]. *)
Lemma equilibrium_elements_ignore_polynomials_witness :
  calculateIntegrand Run.libm (withTmTn Run.basis (fun _ _ _ => PrimFloat.nan))
    Run.constants Run.elemOps Run.elems 2 1 3 4 2%float 0%float 0%float 1%float
    1%float Run.massless
  = Run.integrand 3 4 2%float Run.massless.
Proof.
  apply (@equilibrium_elements_ignore_polynomials float binary64 Run.libm
           Run.basis Run.constants unit Run.elemOps Run.elems 0 0 2 1 3 4).
  intros ce i _ _. reflexivity.
Defined.

(* ===================================================================== *)
(** ** binary64: NaN in the sample, and no collision elements *)
(* ===================================================================== *)

(** With no root in [rootp3] the loop is not entered. *)
Lemma calculateIntegrand_no_roots {F : Type} {SF : Scalar F} (libm : Libm F)
    (polynomialBasis : PolynomialBasis F) (cst : Constants F)
    (CollElem : Type) (elemOps : CollElemOps F CollElem)
    (collisionElements : list CollElem) (m n j k : Z)
    (p2 phi2 phi3 cosTheta2 cosTheta3 : F) (msq : Array4 F) :
  rootp3 (kinematics libm polynomialBasis j k p2 phi2 phi3 cosTheta2 cosTheta3 msq) = [] ->
  calculateIntegrand libm polynomialBasis cst elemOps collisionElements
    m n j k p2 phi2 phi3 cosTheta2 cosTheta3 msq
  = ((c0_0 / pi2Pow5 cst / c8_0)%sc, []).
Proof.
  intros H. unfold calculateIntegrand. rewrite H. reflexivity.
Qed.

Module Binary64Edge.
Import FloatOps FloatAxioms SpecFloat.
Local Open Scope float_scope.

Lemma is_nan_spec (x : float) : is_nan x = true <-> Prim2SF x = S754_nan.
Proof.
  unfold is_nan. rewrite eqb_spec. unfold SFeqb, SFcompare.
  destruct (Prim2SF x) as [s | s | | s m e]; try destruct s; cbn;
    rewrite ?Z.compare_refl, ?Pos.compare_cont_refl; cbn; split; congruence.
Qed.

Lemma add_nan_l (x y : float) :
  Prim2SF x = S754_nan -> Prim2SF (x + y) = S754_nan.
Proof. intros H. rewrite add_spec, H. reflexivity. Qed.

Lemma sub_nan_l (x y : float) :
  Prim2SF x = S754_nan -> Prim2SF (x - y) = S754_nan.
Proof. intros H. rewrite sub_spec, H. reflexivity. Qed.

Lemma mul_nan_l (x y : float) :
  Prim2SF x = S754_nan -> Prim2SF (x * y) = S754_nan.
Proof. intros H. rewrite mul_spec, H. reflexivity. Qed.

Lemma opp_nan (x : float) :
  Prim2SF x = S754_nan -> Prim2SF (- x) = S754_nan.
Proof. intros H. rewrite opp_spec, H. reflexivity. Qed.

Lemma sqrt_nan (x : float) :
  Prim2SF x = S754_nan -> Prim2SF (PrimFloat.sqrt x) = S754_nan.
Proof. intros H. rewrite sqrt_spec, H. reflexivity. Qed.

(** A NaN [kappa] makes both roots NaN: [rootp3] is empty. *)
Lemma kappa_nan_no_roots (libm : Libm float)
    (polynomialBasis : PolynomialBasis float) (j k : Z)
    (p2 phi2 phi3 cosTheta2 cosTheta3 : float) (msq : Array4 float) :
  let L := kinematics libm polynomialBasis j k p2 phi2 phi3 cosTheta2 cosTheta3 msq in
  Prim2SF (kappa L) = S754_nan -> rootp3 L = [].
Proof.
  intros L H.
  assert (HB : Prim2SF (- coefB L) = S754_nan).
  { apply opp_nan, mul_nan_l, Binary64.mul_nan_r, H. }
  unfold rootp3.
  replace (root1 L >=? c0_0)%sc with false.
  replace (root2 L >=? c0_0)%sc with false.
  - reflexivity.
  - symmetry. apply Binary64.leb_nan_r, Binary64.div_nan_l, Binary64.mul_nan_r.
    apply add_nan_l, HB.
  - symmetry. apply Binary64.leb_nan_r, Binary64.div_nan_l, Binary64.mul_nan_r.
    apply sub_nan_l, HB.
Qed.

(** X4.  A NaN in the sample is swallowed: when [p2] or one of the four mass
    squares is NaN, every root is NaN and fails [>= 0.0], so
    [calculateIntegrand] returns [0.0] and writes nothing. *)
Theorem nan_sample_returns_zero (libm : Libm float)
    (polynomialBasis : PolynomialBasis float) (cst : Constants float)
    (CollElem : Type) (elemOps : CollElemOps float CollElem)
    (collisionElements : list CollElem) (m n j k : Z)
    (p2 phi2 phi3 cosTheta2 cosTheta3 : float) (msq : Array4 float) :
  pi cst = Run.M_PI ->
  is_nan p2 = true \/ is_nan (at0 msq) = true \/ is_nan (at1 msq) = true
  \/ is_nan (at2 msq) = true \/ is_nan (at3 msq) = true ->
  calculateIntegrand libm polynomialBasis cst elemOps collisionElements
    m n j k p2 phi2 phi3 cosTheta2 cosTheta3 msq
  = (0, []).
Proof.
  intros Hpi H.
  rewrite calculateIntegrand_no_roots.
  - unfold pi2Pow5. rewrite Hpi. reflexivity.
  - apply kappa_nan_no_roots.
    destruct H as [H | [H | [H | [H | H]]]]; apply is_nan_spec in H.
    + apply Binary64.add_nan_r, Binary64.mul_nan_r, sub_nan_l, Binary64.mul_nan_r.
      apply sqrt_nan, add_nan_l, mul_nan_l, H.
    + apply add_nan_l, sub_nan_l, add_nan_l, add_nan_l, H.
    + apply add_nan_l, sub_nan_l, add_nan_l, Binary64.add_nan_r, H.
    + apply add_nan_l, sub_nan_l, Binary64.add_nan_r, H.
    + apply add_nan_l, Binary64.sub_nan_r, H.
Qed.

(** The massless run with a NaN [p2]. *)
Lemma nan_sample_returns_zero_witness :
  Run.integrand 3 4 nan Run.massless = (0, []).
Proof.
  apply (@nan_sample_returns_zero Run.libm Run.basis Run.constants unit
           Run.elemOps Run.elems 0 0 3 4 nan 0 0 1 1 Run.massless).
  - reflexivity.
  - left. reflexivity.
Defined.

(** [0.0 / |y|] is [+0.0] or NaN. *)
Lemma zero_div_abs (y : float) : zeroOrNaN (0 / abs y).
Proof.
  unfold zeroOrNaN. rewrite is_nan_spec.
  assert (H : Prim2SF (0 / abs y) = S754_zero false -> 0 / abs y = 0).
  { intros E. apply Prim2SF_inj. exact E. }
  rewrite div_spec, abs_spec in *.
  change (Prim2SF 0) with (S754_zero false) in *.
  destruct (Prim2SF y) as [s | s | | s m e]; cbn in *; auto.
Qed.

Lemma zeroOrNaN_add (x y : float) :
  zeroOrNaN x -> zeroOrNaN y -> zeroOrNaN (x + y).
Proof.
  unfold zeroOrNaN. rewrite !is_nan_spec. intros [-> | Hx] [-> | Hy].
  - now left.
  - right. now apply Binary64.add_nan_r.
  - right. now apply add_nan_l.
  - right. now apply add_nan_l.
Qed.

Lemma zeroOrNaN_fold (l : list float) :
  forall acc : float,
    zeroOrNaN acc -> Forall zeroOrNaN l -> zeroOrNaN (fold_left PrimFloat.add l acc).
Proof.
  induction l as [| x l IH]; intros acc Hacc Hl; [exact Hacc |].
  inversion Hl; subst. cbn [fold_left]. apply IH; [| assumption].
  now apply zeroOrNaN_add.
Qed.

(** X5.  With no collision elements the integrand is [+0.0], unless [gDer] at
    an accepted root is zero or NaN, in which case it is NaN: never any
    other value. *)
Theorem no_elements_zero_or_nan (libm : Libm float)
    (polynomialBasis : PolynomialBasis float) (cst : Constants float)
    (CollElem : Type) (elemOps : CollElemOps float CollElem) (m n j k : Z)
    (p2 phi2 phi3 cosTheta2 cosTheta3 : float) (msq : Array4 float) :
  pi cst = Run.M_PI ->
  zeroOrNaN (fst (calculateIntegrand libm polynomialBasis cst elemOps []
                    m n j k p2 phi2 phi3 cosTheta2 cosTheta3 msq)).
Proof.
  intros Hpi. rewrite calculateIntegrand_spec. cbn [fst].
  set (L := kinematics libm polynomialBasis j k p2 phi2 phi3 cosTheta2 cosTheta3 msq).
  set (total := fold_left Sadd
                  (map (rootContribution polynomialBasis cst elemOps [] m n L msq)
                     (acceptedRoots L msq)) c0_0).
  assert (H : zeroOrNaN total).
  { subst total. apply zeroOrNaN_fold; [now left |].
    apply List.Forall_forall. intros c Hc. apply in_map_iff in Hc.
    destruct Hc as (p3 & <- & _). apply zero_div_abs. }
  clearbody total. unfold pi2Pow5. rewrite Hpi.
  destruct H as [-> | H].
  - left. reflexivity.
  - right. apply is_nan_spec. apply is_nan_spec in H.
    apply Binary64.div_nan_l, Binary64.div_nan_l, H.
Qed.

(** Both values occur: [+0.0] at the massless run, NaN at the run with
    [m3^2 = -100], where [E3] and with it [gDer] is NaN. *)
Lemma no_elements_zero_or_nan_witness :
  zeroOrNaN (fst (calculateIntegrand Run.libm Run.basis Run.constants Run.elemOps []
                    0 0 3 4 1 0 0 1 1 Run.massless)).
Proof.
  apply (@no_elements_zero_or_nan Run.libm Run.basis Run.constants unit
           Run.elemOps 0 0 3 4 1 0 0 1 1 Run.massless).
  reflexivity.
Defined.

Example no_elements_both_values :
  fst (calculateIntegrand Run.libm Run.basis Run.constants Run.elemOps []
         0 0 3 4 1 0 0 1 1 Run.massless) = 0
  /\ is_nan (fst (calculateIntegrand Run.libm Run.basis Run.constants Run.elemOps []
                    0 0 3 4 1 0 0 1 1 Run.tachyonic3)) = true.
Proof. split; reflexivity. Qed.

End Binary64Edge.

(* ===================================================================== *)
(** ** The kinematics in exact arithmetic *)
(* ===================================================================== *)

Module Exact.
Local Open Scope R_scope.

(** X8.  The code's discriminant is the square of [2 kappa eps]: in exact
    arithmetic it is never negative, whatever the sample. *)
Theorem discriminant_exact_square (libm : Libm R) (basis : PolynomialBasis R)
    (j k : Z) (p2 phi2 phi3 cosTheta2 cosTheta3 : R) (msq : Array4 R) :
  let L := kinematics libm basis j k p2 phi2 phi3 cosTheta2 cosTheta3 msq in
  discriminant L = (2 * kappa L * eps L) * (2 * kappa L * eps L)
  /\ 0 <= discriminant L.
Proof.
  intros L.
  assert (H : discriminant L = (2 * kappa L * eps L) * (2 * kappa L * eps L)).
  { subst L.
    cbv [kinematics discriminant kappa eps Sadd Ssub Smul c2_0 c4_0 exactReal].
    ring. }
  split; [exact H |]. rewrite H. nra.
Qed.

(** The two roots in terms of [kappa], [eps] and [delta]. *)
Lemma roots_formula (libm : Libm R) (basis : PolynomialBasis R) (j k : Z)
    (p2 phi2 phi3 cosTheta2 cosTheta3 : R) (msq : Array4 R) :
  let L := kinematics libm basis j k p2 phi2 phi3 cosTheta2 cosTheta3 msq in
  root1 L = 1 / 2 * (- (2 * kappa L * delta L)
                     - sqrt ((2 * kappa L * eps L) * (2 * kappa L * eps L)))
            / (delta L * delta L - eps L * eps L)
  /\ root2 L = 1 / 2 * (- (2 * kappa L * delta L)
                        + sqrt ((2 * kappa L * eps L) * (2 * kappa L * eps L)))
               / (delta L * delta L - eps L * eps L).
Proof.
  intros L.
  assert (H : discriminant L = (2 * kappa L * eps L) * (2 * kappa L * eps L)).
  { subst L.
    cbv [kinematics discriminant kappa eps Sadd Ssub Smul c2_0 c4_0 exactReal].
    ring. }
  change (root1 L) with (1 / 2 * (- coefB L - sqrt (discriminant L)) / coefA L).
  change (root2 L) with (1 / 2 * (- coefB L + sqrt (discriminant L)) / coefA L).
  rewrite H. split; reflexivity.
Qed.

(** X9.  With [m3^2 = 0], [|delta| < eps] and [kappa >= 0], the first root is
    [kappa / (eps - delta)], it is not negative and it is a zero of [g];
    the second root, [-kappa / (eps + delta)], is not positive. *)
Theorem massless3_root_genuine (libm : Libm R) (basis : PolynomialBasis R)
    (j k : Z) (p2 phi2 phi3 cosTheta2 cosTheta3 : R) (msq : Array4 R) :
  let L := kinematics libm basis j k p2 phi2 phi3 cosTheta2 cosTheta3 msq in
  at2 msq = 0 -> Rabs (delta L) < eps L -> 0 <= kappa L ->
  root1 L = kappa L / (eps L - delta L)
  /\ 0 <= root1 L
  /\ funcG L msq (root1 L) = 0
  /\ root2 L = - kappa L / (eps L + delta L)
  /\ root2 L <= 0.
Proof.
  intros L Hm Hd Hk.
  destruct (roots_formula libm basis j k p2 phi2 phi3 cosTheta2 cosTheta3 msq)
    as [H1 H2].
  fold L in H1, H2. clearbody L.
  assert (He : 0 < eps L) by (pose proof (Rabs_pos (delta L)); lra).
  apply Rabs_def2 in Hd. destruct Hd as [Hd1 Hd2].
  assert (HA : delta L * delta L - eps L * eps L < 0) by nra.
  rewrite sqrt_square in H1, H2 by nra.
  assert (E1 : root1 L = kappa L / (eps L - delta L)).
  { rewrite H1. field. split; lra. }
  assert (E2 : root2 L = - kappa L / (eps L + delta L)).
  { rewrite H2. field. split; lra. }
  assert (P1 : 0 <= root1 L).
  { rewrite E1. apply Rmult_le_pos; [lra |]. left. apply Rinv_0_lt_compat. lra. }
  split; [exact E1 |]. split; [exact P1 |]. split.
  - unfold funcG. rewrite Hm. cbv [Sadd Ssub Smul Ssqrt exactReal].
    rewrite Rplus_0_r, sqrt_square by exact P1. rewrite E1. field. lra.
  - split; [exact E2 |]. rewrite E2.
    assert (0 <= kappa L / (eps L + delta L)).
    { apply Rmult_le_pos; [lra |]. left. apply Rinv_0_lt_compat. lra. }
    unfold Rdiv in *. lra.
Qed.

(** X10.  With [m3^2 = 0], [|delta| < eps] and [kappa < 0], the only root that
    passes [p3 >= 0] is [-kappa / (eps + delta)], and it is not a zero
    of [g]: [g] is [2 kappa eps / (eps + delta) < 0] there.  It is a root
    of the squared equation only. *)
Theorem massless3_root_spurious (libm : Libm R) (basis : PolynomialBasis R)
    (j k : Z) (p2 phi2 phi3 cosTheta2 cosTheta3 : R) (msq : Array4 R) :
  let L := kinematics libm basis j k p2 phi2 phi3 cosTheta2 cosTheta3 msq in
  at2 msq = 0 -> Rabs (delta L) < eps L -> kappa L < 0 ->
  root1 L = - kappa L / (eps L + delta L)
  /\ 0 < root1 L
  /\ funcG L msq (root1 L) = 2 * kappa L * eps L / (eps L + delta L)
  /\ funcG L msq (root1 L) < 0
  /\ root2 L = kappa L / (eps L - delta L)
  /\ root2 L < 0.
Proof.
  intros L Hm Hd Hk.
  destruct (roots_formula libm basis j k p2 phi2 phi3 cosTheta2 cosTheta3 msq)
    as [H1 H2].
  fold L in H1, H2. clearbody L.
  assert (He : 0 < eps L) by (pose proof (Rabs_pos (delta L)); lra).
  apply Rabs_def2 in Hd. destruct Hd as [Hd1 Hd2].
  assert (HA : delta L * delta L - eps L * eps L < 0) by nra.
  replace ((2 * kappa L * eps L) * (2 * kappa L * eps L))
    with ((- (2 * kappa L * eps L)) * (- (2 * kappa L * eps L))) in H1, H2 by ring.
  rewrite sqrt_square in H1, H2 by nra.
  assert (E1 : root1 L = - kappa L / (eps L + delta L)).
  { rewrite H1. field. split; lra. }
  assert (E2 : root2 L = kappa L / (eps L - delta L)).
  { rewrite H2. field. split; lra. }
  assert (P1 : 0 < root1 L).
  { rewrite E1. apply Rmult_lt_0_compat; [lra |]. apply Rinv_0_lt_compat. lra. }
  assert (G : funcG L msq (root1 L) = 2 * kappa L * eps L / (eps L + delta L)).
  { unfold funcG. rewrite Hm. cbv [Sadd Ssub Smul Ssqrt exactReal].
    rewrite Rplus_0_r, sqrt_square by lra. rewrite E1. field. lra. }
  split; [exact E1 |]. split; [exact P1 |]. split; [exact G |]. split.
  - rewrite G.
    assert (0 < (- (2 * kappa L * eps L)) / (eps L + delta L)).
    { apply Rmult_lt_0_compat; [nra |]. apply Rinv_0_lt_compat. lra. }
    unfold Rdiv in *. lra.
  - split; [exact E2 |]. rewrite E2.
    assert (0 < (- kappa L) / (eps L - delta L)).
    { apply Rmult_lt_0_compat; [lra |]. apply Rinv_0_lt_compat. lra. }
    unfold Rdiv in *. lra.
Qed.

Lemma Rleb_0_0 : Rleb 0 0 = true.
Proof. unfold Rleb. destruct (Rle_dec 0 0); [reflexivity | lra]. Qed.

(** X11.  When [kappa = 0] and the quadratic is not degenerate
    ([A = delta^2 - eps^2] is not zero, so that the division by [A] is a
    division), both roots are [0], both pass [>= 0.0], and [rootp3] holds
    the root [0] twice: it is counted twice. *)
Theorem kappa_zero_root_counted_twice (libm : Libm R) (basis : PolynomialBasis R)
    (j k : Z) (p2 phi2 phi3 cosTheta2 cosTheta3 : R) (msq : Array4 R) :
  let L := kinematics libm basis j k p2 phi2 phi3 cosTheta2 cosTheta3 msq in
  kappa L = 0 -> coefA L <> 0 -> rootp3 L = [0; 0].
Proof.
  intros L Hk HA.
  destruct (roots_formula libm basis j k p2 phi2 phi3 cosTheta2 cosTheta3 msq)
    as [H1 H2].
  fold L in H1, H2.
  change (coefA L) with (delta L * delta L - eps L * eps L) in HA.
  clearbody L. rewrite Hk in H1, H2.
  replace (2 * 0 * eps L * (2 * 0 * eps L)) with 0 in H1, H2 by ring.
  rewrite sqrt_0 in H1, H2.
  assert (E1 : root1 L = 0) by (rewrite H1; field; exact HA).
  assert (E2 : root2 L = 0) by (rewrite H2; field; exact HA).
  unfold rootp3. rewrite E1, E2. cbn [Sleb c0_0 exactReal].
  rewrite Rleb_0_0. reflexivity.
Qed.

(** X6.  When [p3Hat] is a unit vector and the three-vector of particle 2 has
    length [p2] (and the three energies are square roots of nonnegative
    numbers), the momentum [FV4 = FV1 + FV2 - FV3] of lines 179-190 is off
    its mass shell by exactly [g(p3)]: [FV4 * FV4 - m4^2 = g(p3)].  So
    particle 4 is on shell exactly at the zeros of [g]. *)
Theorem FV4_off_shell_by_funcG (libm : Libm R) (basis : PolynomialBasis R)
    (j k : Z) (p2 phi2 phi3 cosTheta2 cosTheta3 : R) (msq : Array4 R) (p3 : R) :
  let L := kinematics libm basis j k p2 phi2 phi3 cosTheta2 cosTheta3 msq in
  let P := fourMomentaAt L msq p3 in
  FVdot (FV3Hat L) (FV3Hat L) = -1 ->
  FVdot (FV2dummy L) (FV2dummy L) = - (p2 * p2) ->
  0 <= p1 L * p1 L + at0 msq ->
  0 <= p2 * p2 + at1 msq ->
  0 <= p3 * p3 + at2 msq ->
  FVdot (at3 P) (at3 P) - at3 msq = funcG L msq p3.
Proof.
  intros L P Hhat H2 Hm1 Hm2 Hm3. subst P L.
  destruct msq as [m1 m2 m3 m4].
  cbv [kinematics funcG fourMomentaAt FVdot FVscale FVadd FVsub setEnergy
       fv0 fv1 fv2 fv3 at0 at1 at2 at3 p1 FV1dummy FV2dummy FV3Hat
       E1 E2 kappa eps delta
       Sadd Ssub Smul Sopp Ssqrt c0_0 c1_0 c2_0 exactReal] in *.
  set (y := rhoPar_to_pPar basis (rhoParGrid basis k)) in *.
  set (z := rhoZ_to_pZ basis (rhoZGrid basis j)) in *.
  assert (Hp : 0 <= z * z + y * y) by nra.
  pose proof (sqrt_sqrt _ Hp) as Ep.
  set (p := sqrt (z * z + y * y)) in *.
  pose proof (sqrt_sqrt _ Hm1) as Ea.
  pose proof (sqrt_sqrt _ Hm2) as Eb.
  pose proof (sqrt_sqrt _ Hm3) as Ee.
  set (a := sqrt (p * p + m1)) in *.
  set (b := sqrt (p2 * p2 + m2)) in *.
  set (e := sqrt (p3 * p3 + m3)) in *.
  clearbody a b e p.
  nsatz.
Qed.

(** The values of [kappa], [eps] and [delta] at the sample of
    [RunExact]: [p1 = (0, 4, 3)], [p2] along [z], masses
    [(0, 0, 0, m4^2)]. *)
Lemma RunExact_values (p2 m4sq : R) :
  0 <= p2 ->
  let L := RunExact.locals 3 4 p2 (mkArray4 0 0 0 m4sq) in
  kappa L = 4 * p2 - m4sq /\ eps L = 2 * (5 + p2) /\ delta L = 2 * (3 + p2).
Proof.
  intros Hp L. subst L.
  cbv [RunExact.locals RunExact.libm RunExact.basis
       kinematics FVdot FVscale fv0 fv1 fv2 fv3 at0 at1 at2 at3
       kappa eps delta Sadd Ssub Smul Sopp Ssqrt c0_0 c1_0 c2_0 exactReal
       std_sin std_cos std_acos rhoZGrid rhoParGrid rhoZ_to_pZ rhoPar_to_pPar].
  replace (3 * 3 + 4 * 4) with (5 * 5) by ring.
  rewrite (sqrt_square 5) by lra.
  replace (5 * 5 + 0) with (5 * 5) by ring.
  replace (p2 * p2 + 0) with (p2 * p2) by ring.
  rewrite (sqrt_square 5), (sqrt_square p2) by lra.
  repeat split; ring.
Qed.

(** [kappa = 4], [eps = 12], [delta = 8]: the root is [1]. *)
Lemma massless3_root_genuine_witness :
  let L := RunExact.locals 3 4 1 (mkArray4 0 0 0 0) in
  root1 L = kappa L / (eps L - delta L)
  /\ 0 <= root1 L
  /\ funcG L (mkArray4 0 0 0 0) (root1 L) = 0
  /\ root2 L = - kappa L / (eps L + delta L)
  /\ root2 L <= 0.
Proof.
  intros L.
  destruct (RunExact_values 0 Rle_0_1) as (Hk & He & Hd). fold L in Hk, He, Hd.
  apply (@massless3_root_genuine RunExact.libm RunExact.basis 3 4 1 0 0 1 1
           (mkArray4 0 0 0 0));
    change (kinematics RunExact.libm RunExact.basis 3 4 1 0 0 1 1 (mkArray4 0 0 0 0))
      with L.
  - reflexivity.
  - rewrite Hd, He, Rabs_pos_eq; lra.
  - rewrite Hk. lra.
Defined.

(** Masses [(0, 0, 0, 100)]: [kappa = -96], the root [4.8] has
    [g = -115.2]. *)
Lemma massless3_root_spurious_witness :
  let L := RunExact.locals 3 4 1 (mkArray4 0 0 0 100) in
  root1 L = - kappa L / (eps L + delta L)
  /\ 0 < root1 L
  /\ funcG L (mkArray4 0 0 0 100) (root1 L) = 2 * kappa L * eps L / (eps L + delta L)
  /\ funcG L (mkArray4 0 0 0 100) (root1 L) < 0
  /\ root2 L = kappa L / (eps L - delta L)
  /\ root2 L < 0.
Proof.
  intros L.
  destruct (RunExact_values 100 Rle_0_1) as (Hk & He & Hd). fold L in Hk, He, Hd.
  apply (@massless3_root_spurious RunExact.libm RunExact.basis 3 4 1 0 0 1 1
           (mkArray4 0 0 0 100));
    change (kinematics RunExact.libm RunExact.basis 3 4 1 0 0 1 1 (mkArray4 0 0 0 100))
      with L.
  - reflexivity.
  - rewrite Hd, He, Rabs_pos_eq; lra.
  - rewrite Hk. lra.
Defined.

(** At [p2 = 0] with massless particles [kappa = 0], [eps = 10] and
    [delta = 6]: [A = -64]. *)
Lemma kappa_zero_root_counted_twice_witness :
  rootp3 (RunExact.locals 3 4 0 (mkArray4 0 0 0 0)) = [0; 0].
Proof.
  destruct (RunExact_values 0 (Rle_refl 0)) as (Hk & He & Hd).
  cbv zeta in Hk, He, Hd.
  apply (@kappa_zero_root_counted_twice RunExact.libm RunExact.basis 3 4 0 0 0 1 1
           (mkArray4 0 0 0 0)).
  - change (kinematics RunExact.libm RunExact.basis 3 4 0 0 0 1 1 (mkArray4 0 0 0 0))
      with (RunExact.locals 3 4 0 (mkArray4 0 0 0 0)).
    rewrite Hk. ring.
  - change (delta (RunExact.locals 3 4 0 (mkArray4 0 0 0 0))
            * delta (RunExact.locals 3 4 0 (mkArray4 0 0 0 0))
            - eps (RunExact.locals 3 4 0 (mkArray4 0 0 0 0))
              * eps (RunExact.locals 3 4 0 (mkArray4 0 0 0 0)) <> 0).
    rewrite Hd, He. lra.
Defined.

(** The massless sample at [p3 = 1]. *)
Lemma FV4_off_shell_by_funcG_witness :
  let L := RunExact.locals 3 4 1 RunExact.massless in
  let P := fourMomentaAt L RunExact.massless 1 in
  FVdot (at3 P) (at3 P) - at3 RunExact.massless = funcG L RunExact.massless 1.
Proof.
  apply (@FV4_off_shell_by_funcG RunExact.libm RunExact.basis 3 4 1 0 0 1 1
           RunExact.massless 1).
  - cbv [RunExact.libm RunExact.basis kinematics FV3Hat FVdot fv0 fv1 fv2 fv3
         Ssub Smul c0_0 exactReal std_sin std_cos std_acos]. ring.
  - cbv [RunExact.libm RunExact.basis kinematics FV2dummy FVdot fv0 fv1 fv2 fv3
         Ssub Smul c0_0 exactReal std_sin std_cos std_acos]. ring.
  - cbv [RunExact.massless at0].
    match goal with |- 0 <= ?x * ?x + 0 => nra end.
  - cbv [RunExact.massless at1]. lra.
  - cbv [RunExact.massless at2]. lra.
Defined.

End Exact.

(** ** The integrand as a function of the collision elements, in exact
    arithmetic *)

Section ExactLinearity.
Local Open Scope R_scope.

Variable libm : Libm R.
Variable basis : PolynomialBasis R.
Variable cst : Constants R.
Variable CollElem : Type.
Variable ops : CollElemOps R CollElem.

Lemma sum_from_accumulator (m n : Z) (P : Array4 (FourVector R))
    (l : list CollElem) :
  forall a : R,
    fold_left
      (fun integrand ce =>
         integrand + evaluateElem ops (fixDeltaF basis ops m n P ce) P) l a
    = a + sumCollisionElements basis ops l m n P.
Proof.
  unfold sumCollisionElements. cbv [Sadd c0_0 exactReal].
  induction l as [| ce l IH]; intros a; cbn [fold_left]; [ring |].
  rewrite IH, (IH (0 + _)). ring.
Qed.

Lemma sumCollisionElements_app (m n : Z) (P : Array4 (FourVector R))
    (l1 l2 : list CollElem) :
  sumCollisionElements basis ops (l1 ++ l2) m n P
  = sumCollisionElements basis ops l1 m n P + sumCollisionElements basis ops l2 m n P.
Proof.
  unfold sumCollisionElements at 1. rewrite fold_left_app.
  cbv [Sadd exactReal]. rewrite sum_from_accumulator. reflexivity.
Qed.

Lemma sumCollisionElements_scaled_from (c : R) (m n : Z)
    (P : Array4 (FourVector R)) (l : list CollElem) :
  forall a : R,
    fold_left
      (fun integrand ce =>
         integrand + evaluateElem (scaledElemOps c ops)
                       (fixDeltaF basis (scaledElemOps c ops) m n P ce) P)%sc
      l (c * a)
    = c * fold_left
            (fun integrand ce =>
               integrand + evaluateElem ops (fixDeltaF basis ops m n P ce) P)%sc
            l a.
Proof.
  induction l as [| ce l IH]; intros a; cbn [fold_left]; [reflexivity |].
  rewrite <- IH. f_equal.
  change (fixDeltaF basis (scaledElemOps c ops) m n P ce)
    with (fixDeltaF basis ops m n P ce).
  cbn [evaluateElem scaledElemOps Smul Sadd exactReal]. ring.
Qed.

Lemma sumCollisionElements_scaled (c : R) (m n : Z)
    (P : Array4 (FourVector R)) (l : list CollElem) :
  sumCollisionElements basis (scaledElemOps c ops) l m n P
  = c * sumCollisionElements basis ops l m n P.
Proof.
  unfold sumCollisionElements. rewrite <- sumCollisionElements_scaled_from.
  f_equal. cbv [c0_0 exactReal]. ring.
Qed.

Lemma fold_Rplus_from (l : list R) :
  forall a, fold_left Rplus l a = a + fold_left Rplus l 0.
Proof.
  induction l as [| x l IH]; intros a; cbn [fold_left]; [ring |].
  rewrite IH, (IH (0 + x)). ring.
Qed.

Lemma fold_Rplus_scaled (A : Type) (c : R) (f : A -> R) (l : list A) :
  fold_left Rplus (map (fun x => c * f x) l) 0
  = c * fold_left Rplus (map f l) 0.
Proof.
  induction l as [| x l IH]; cbn [map fold_left]; [ring |].
  rewrite fold_Rplus_from, IH, (fold_Rplus_from _ (0 + f x)). ring.
Qed.

Lemma fold_Rplus_add (A : Type) (f g : A -> R) (l : list A) :
  fold_left Rplus (map (fun x => f x + g x) l) 0
  = fold_left Rplus (map f l) 0 + fold_left Rplus (map g l) 0.
Proof.
  induction l as [| x l IH]; cbn [map fold_left]; [ring |].
  rewrite fold_Rplus_from, IH, (fold_Rplus_from _ (0 + f x)),
    (fold_Rplus_from _ (0 + g x)). ring.
Qed.

(** X12.  In exact arithmetic, multiplying every matrix element by a constant
    [c] multiplies the
    integrand by [c] and leaves what is written unchanged. *)
Theorem integrand_scales_with_matrix_elements (c : R) (elems : list CollElem)
    (m n j k : Z) (p2 phi2 phi3 cosTheta2 cosTheta3 : R) (msq : Array4 R) :
  calculateIntegrand libm basis cst (scaledElemOps c ops) elems
    m n j k p2 phi2 phi3 cosTheta2 cosTheta3 msq
  = (c * fst (calculateIntegrand libm basis cst ops elems
                m n j k p2 phi2 phi3 cosTheta2 cosTheta3 msq),
     snd (calculateIntegrand libm basis cst ops elems
            m n j k p2 phi2 phi3 cosTheta2 cosTheta3 msq)).
Proof.
  rewrite !calculateIntegrand_spec. cbv zeta. cbn [fst snd]. f_equal.
  set (L := kinematics libm basis j k p2 phi2 phi3 cosTheta2 cosTheta3 msq).
  rewrite (map_ext (rootContribution basis cst (scaledElemOps c ops) elems m n L msq)
             (fun p3 => c * rootContribution basis cst ops elems m n L msq p3)).
  - change (@Sadd R exactReal) with Rplus. change (@c0_0 R exactReal) with 0.
    rewrite fold_Rplus_scaled. cbv [Sdiv exactReal]. unfold Rdiv. ring.
  - intros p3. unfold rootContribution. rewrite sumCollisionElements_scaled.
    cbv [Sdiv exactReal]. unfold Rdiv. ring.
Qed.

(** X13.  In exact arithmetic, the integrand of a list of collision elements
    split in two is the
    sum of the integrands of the two parts; what is written does not
    depend on the collision elements. *)
Theorem integrand_additive_over_elements (l1 l2 : list CollElem)
    (m n j k : Z) (p2 phi2 phi3 cosTheta2 cosTheta3 : R) (msq : Array4 R) :
  calculateIntegrand libm basis cst ops (l1 ++ l2)
    m n j k p2 phi2 phi3 cosTheta2 cosTheta3 msq
  = (fst (calculateIntegrand libm basis cst ops l1
            m n j k p2 phi2 phi3 cosTheta2 cosTheta3 msq)
     + fst (calculateIntegrand libm basis cst ops l2
              m n j k p2 phi2 phi3 cosTheta2 cosTheta3 msq),
     snd (calculateIntegrand libm basis cst ops l1
            m n j k p2 phi2 phi3 cosTheta2 cosTheta3 msq)).
Proof.
  rewrite !calculateIntegrand_spec. cbv zeta. cbn [fst snd]. f_equal.
  set (L := kinematics libm basis j k p2 phi2 phi3 cosTheta2 cosTheta3 msq).
  rewrite (map_ext (rootContribution basis cst ops (l1 ++ l2) m n L msq)
             (fun p3 => rootContribution basis cst ops l1 m n L msq p3
                        + rootContribution basis cst ops l2 m n L msq p3)).
  - change (@Sadd R exactReal) with Rplus. change (@c0_0 R exactReal) with 0.
    rewrite fold_Rplus_add. cbv [Sdiv exactReal]. unfold Rdiv. ring.
  - intros p3. unfold rootContribution. rewrite sumCollisionElements_app.
    cbv [Sdiv exactReal]. unfold Rdiv. ring.
Qed.

End ExactLinearity.

(* ===================================================================== *)
(** ** The records that enter the collision-element sum (claim C4) *)
(* ===================================================================== *)

Module Records.
Local Open Scope R_scope.







End Records.

(* ===================================================================== *)
(** ** The Python cancellation callback *)
(* ===================================================================== *)

(** X14.  [shouldContinueEvaluation] returns [true] exactly when
    [PyErr_CheckSignals()] is [0], throws [error_already_set] exactly
    when it is not, and never returns [false]: the [return false] of line
    42 is not reached. *)
Theorem shouldContinueEvaluation_never_false (PyErr_CheckSignals : Z) :
  (Python.shouldContinueEvaluation PyErr_CheckSignals = Python.Return true
   <-> PyErr_CheckSignals = 0%Z)
  /\ (Python.shouldContinueEvaluation PyErr_CheckSignals
      = Python.Throw Python.error_already_set
      <-> PyErr_CheckSignals <> 0%Z)
  /\ Python.shouldContinueEvaluation PyErr_CheckSignals <> Python.Return false.
Proof.
  unfold Python.shouldContinueEvaluation.
  destruct (Z.eqb_spec PyErr_CheckSignals 0) as [-> | Hne]; cbn.
  - repeat split; try congruence; try discriminate.
  - repeat split; try congruence; try discriminate.
Qed.
